(** * ONVIF adapter: the device type of [src/lib/onvif-device.js]

    A shallow embedding of [OnvifDevice] (its constructor, the snapshot
    poller started by the constructor, [snapshot] and [performAction]) and
    the properties stated about it.

    JavaScript values are modelled by the inductive [value]; numbers are
    binary64 floats (Rocq's primitive floats), strings are [string]s whose
    characters stand for code units below 256.  The side effects of the
    code (calls into the camera client, into the host runtime and into the
    console) are recorded, in program order, in a trace of [event]s. *)

From Stdlib Require Import ZArith String Ascii List.
From Stdlib Require Import Floats.PrimFloat Floats.SpecFloat Floats.FloatOps.
From stdpp Require Import gmap strings list pretty.

Local Open Scope string_scope.
Local Open Scope Z_scope.

(** ** JavaScript values *)

Module Js.

(** The values the adapter handles.  An object is its list of own
    properties, each name listed once. *)
#[local] Unset Elimination Schemes.
Inductive value : Type :=
| VUndefined
| VNull
| VBool (b : bool)
| VNum (n : float)
| VStr (s : string)
| VObj (fields : list (string * value)).
#[local] Set Elimination Schemes.

(** What a [throw] or a rejected promise carries. *)
Inductive error : Type :=
| TypeError (what : string)
| Reason (v : value).

(** A settled promise. *)
Inductive promise (A : Type) : Type :=
| Resolved (a : A)
| Rejected (e : error).
Arguments Resolved {A} a.
Arguments Rejected {A} e.

(** [typeof v === 'number'] *)
Definition is_number (v : value) : bool :=
  match v with VNum _ => true | _ => false end.

(** [v === null] *)
Definition is_null (v : value) : bool :=
  match v with VNull => true | _ => false end.

(** The own property [k] of an object's field list ([undefined] when there
    is none). *)
Fixpoint field (k : string) (fields : list (string * value)) : value :=
  match fields with
  | [] => VUndefined
  | (k', v) :: rest => if String.eqb k k' then v else field k rest
  end.

(** The member access [v.k]: a [TypeError] on [undefined] and [null], the
    own property on an object, [undefined] on the other primitives (none of
    the names the adapter reads is defined on their prototypes). *)
Definition member (v : value) (k : string) : error + value :=
  match v with
  | VUndefined => inl (TypeError ("Cannot read properties of undefined (reading '" ++ k ++ "')"))
  | VNull => inl (TypeError ("Cannot read properties of null (reading '" ++ k ++ "')"))
  | VObj fields => inr (field k fields)
  | _ => inr VUndefined
  end.

(** The Number nearest to the integer [z] (round to nearest, ties to even;
    [Infinity] beyond the binary64 range). *)
Definition number_of_Z (z : Z) : float :=
  SF2Prim (binary_normalize 53 1024 z 0 false).

(** *** [parseInt(string, 10)] *)

(** White space and line terminators among the code units below 256. *)
Definition is_white_space (c : ascii) : bool :=
  let n := N_of_ascii c in
  ((9 <=? n) && (n <=? 13) || (n =? 32) || (n =? 160))%N.

Definition digit_of (c : ascii) : option Z :=
  let n := Z.of_N (N_of_ascii c) in
  if (48 <=? n) && (n <=? 57) then Some (n - 48) else None.

Fixpoint trim_start (s : string) : string :=
  match s with
  | String c rest => if is_white_space c then trim_start rest else s
  | EmptyString => s
  end.

(** The longest prefix of decimal digits of [s], read with the digits
    [acc] before it; [None] when there is no digit at all. *)
Fixpoint digits (acc : option Z) (s : string) : option Z :=
  match s with
  | String c rest =>
      match digit_of c with
      | Some d => digits (Some (10 * default 0 acc + d)) rest
      | None => acc
      end
  | EmptyString => acc
  end.

(** [parseInt(s, 10)] on a string: leading white space is skipped, a sign
    is read, then the longest run of decimal digits; [NaN] when the run is
    empty.  What follows the digits is ignored. *)
Definition parseInt_string (s : string) : float :=
  let s := trim_start s in
  let '(negative, s) :=
    match s with
    | String "-" rest => (true, rest)
    | String "+" rest => (false, rest)
    | _ => (false, s)
    end in
  match digits None s with
  | None => nan
  | Some n => if negative then PrimFloat.opp (number_of_Z n) else number_of_Z n
  end.

(** [Number.MAX_SAFE_INTEGER]: up to it, in absolute value, every integer
    is a Number of its own. *)
Definition MAX_SAFE_INTEGER : Z := 9007199254740991.

(** A field of the camera's profile that the adapter converts to text:
    missing, an integer Number or a string.  [SInt n] stands for the Number
    [n] for an integer of the safe range ([|n| <= MAX_SAFE_INTEGER]) only:
    a larger integer need not be a Number, and from 1e21 on JavaScript
    prints a Number in the exponent form, which [to_string] does not
    model.  What is stated of [SInt n] is stated within that range. *)
Inductive scalar : Type :=
| SUndefined
| SInt (n : Z)
| SStr (s : string).

(** ToString, as a template literal applies it: the decimal digits of an
    integer of the safe range. *)
Definition to_string (v : scalar) : string :=
  match v with
  | SUndefined => "undefined"
  | SInt n => pretty n
  | SStr s => s
  end.

(** [parseInt(v, 10)]: the argument is converted to a string first. *)
Definition parseInt (v : scalar) : float := parseInt_string (to_string v).

(** *** [Buffer.prototype.toString('base64')] *)

Definition base64_alphabet : string :=
  "ABCDEFGHIJKLMNOPQRSTUVWXYZabcdefghijklmnopqrstuvwxyz0123456789+/".

(** The character of the 6-bit group [n]. *)
Definition base64_char (n : N) : ascii :=
  default "="%char (String.get (N.to_nat (N.land n 63)) base64_alphabet).

(** Three bytes give four characters; a last group of one or two bytes is
    padded with [=]. *)
Fixpoint base64 (bytes : list Byte.byte) : string :=
  match bytes with
  | [] => ""
  | [a] =>
      let n := N.shiftl (Byte.to_N a) 16 in
      String (base64_char (N.shiftr n 18))
        (String (base64_char (N.shiftr n 12)) "==")
  | [a; b] =>
      let n := N.lor (N.shiftl (Byte.to_N a) 16) (N.shiftl (Byte.to_N b) 8) in
      String (base64_char (N.shiftr n 18))
        (String (base64_char (N.shiftr n 12))
           (String (base64_char (N.shiftr n 6)) "="))
  | a :: b :: c :: rest =>
      let n := N.lor (N.lor (N.shiftl (Byte.to_N a) 16) (N.shiftl (Byte.to_N b) 8))
                 (Byte.to_N c) in
      String (base64_char (N.shiftr n 18))
        (String (base64_char (N.shiftr n 12))
           (String (base64_char (N.shiftr n 6))
              (String (base64_char n) (base64 rest))))
  end.

End Js.

(** ** The camera client (external): what the adapter reads and calls *)

Module Video.
Record resolution := { Width : Js.scalar; Height : Js.scalar }.
Record rate_control := { BitrateLimit : Js.scalar; FrameRateLimit : Js.scalar }.
Record configuration := {
  Encoding : Js.value;
  Resolution : resolution;
  RateControl : rate_control;
  Quality : Js.scalar;
}.
End Video.

Module Audio.
Record configuration := {
  Encoding : Js.value;
  Bitrate : Js.scalar;
  SampleRate : Js.scalar;
}.
End Audio.

Record stream_uri := { Uri : Js.value }.

(** [camera.getDefaultProfile()].  The audio block is optional: [None] is a
    profile without [AudioEncoderConfiguration] (a falsy member), [Some] an
    object, which is truthy. *)
Record profile := {
  StreamUri : stream_uri;
  VideoEncoderConfiguration : Video.configuration;
  AudioEncoderConfiguration : option Audio.configuration;
}.

(** [camera.getInformation()] *)
Record information := { Manufacturer : string; Model : string }.

(** The velocity object literal [{x, y, z}] handed to [continuousMove]. *)
Record velocity := { x : Js.value; y : Js.value; z : Js.value }.

(** [camera.ptz]: each call returns a promise; the record gives how the
    promise of a call settles. *)
Record ptz_service := {
  continuousMove : Js.value -> velocity -> Js.value -> Js.promise unit;
  stop : Js.promise unit;
}.

(** What [camera.snapshot.getSnapshot()] resolves to: the MIME type of the
    picture and its bytes.  The adapter passes both on unchecked; the
    record is a response that carries both. *)
Record snapshot_response := { res_mimeType : string; image : list Byte.byte }.

(** What [OnvifDevice.snapshot()] resolves to. *)
Record snapshot_result := { mimeType : string; buffer : list Byte.byte }.

(** The camera object.  [ptz] is [None] when the camera has no PTZ service
    ([camera.ptz] is undefined); [events] tells whether [camera.events] is
    there. *)
Record camera := {
  getInformation : information;
  getDefaultProfile : profile;
  ptz : option ptz_service;
  events : bool;
}.

(** The discovery data. *)
Record discovery := { data_urn : string; data_name : string }.

(** ** The host runtime (external): properties, actions, notifications *)

Module Property.
(** The description object given to the property's constructor. *)
Record description := { label : string; type : string; readOnly : bool }.

(** Modelled from the spec: [OnvifProperty] of [./onvif-property], the
    module that [onvif-device.js] requires and whose source is missing.  A
    property has a name, display metadata (label, value type, read-only
    flag) and a cached value; the constructor
    [new OnvifProperty(device, name, description, value)] stores its
    arguments. *)
Record t := { name : string; descr : description; value : Js.value }.

(** Modelled from the spec: [setCachedValue] of the missing
    [OnvifProperty] overwrites the cached value. *)
Definition setCachedValue (v : Js.value) (p : t) : t :=
  {| name := name p; descr := descr p; value := v |}.
End Property.

Module Schema.
(** One entry of [properties] in an action's input descriptor. *)
Record number_schema := {
  type : string;
  minimum : option float;
  maximum : option float;
  unit : option string;
}.

(** The [input] member of an action's metadata. *)
Record input := {
  input_type : string;
  required : list string;
  properties : list (string * number_schema);
}.

(** The metadata given to [addAction]. *)
Record action := { label : string; input_schema : option input }.
End Schema.

Module Action.
(** The action object handed to [performAction]: its name, its input and
    its status. *)
Record t := { name : string; input : Js.value; status : string }.
End Action.

(** The effects of the adapter, as an observer of the camera client, of the
    host runtime and of the console sees them. *)
Inductive event : Type :=
| CameraAdd (service : string)
| EventsGetEventProperties
| EventsOn (topic : string)
| EventsStartPull
| SetInterval (ms : Z)
| GetSnapshot (outcome : Js.promise snapshot_response)
| ContinuousMove (frame : Js.value) (v : velocity) (timeout : Js.value)
    (outcome : Js.promise unit)
| Stop (outcome : Js.promise unit)
| ActionStart
| ActionFinish
| ActionNotify (status : string)
| SetCachedValue (property : string) (v : Js.value)
| NotifyPropertyChanged (property : string) (v : Js.value)
| ConsoleError (message : string) (e : Js.error).

(** The device object. *)
Record OnvifDevice := {
  id : string;
  this_camera : camera;
  urn : string;
  name : string;
  description : string;
  context : string;
  types : list string;
  properties : gmap string Property.t;
  actions : gmap string Schema.action;
}.

(** ** Statements with effects

    A statement runs on a mutable object of type [S] (the device under
    [this], or the action passed to [performAction]); it completes normally
    or throws, changes the object in place and adds its events to the
    trace.  What was changed before a [throw] stays changed. *)

Inductive completion (A : Type) : Type :=
| Normal (a : A)
| Throw (e : Js.error).
Arguments Normal {A} a.
Arguments Throw {A} e.

Definition M (S A : Type) : Type := S -> completion A * S * list event.

#[global] Instance M_ret {S} : MRet (M S) :=
  fun A a s => (Normal a, s, []).

#[global] Instance M_bind {S} : MBind (M S) :=
  fun A B f m s =>
    match m s with
    | (Normal a, s', t) => let '(r, s'', t') := f a s' in (r, s'', (t ++ t')%list)
    | (Throw e, s', t) => (Throw e, s', t)
    end.

Definition emit {S} (ev : event) : M S unit := fun s => (Normal tt, s, [ev]).
Definition throw {S A} (e : Js.error) : M S A := fun s => (Throw e, s, []).
Definition gets {S A} (f : S -> A) : M S A := fun s => (Normal (f s), s, []).
Definition modify {S} (f : S -> S) : M S unit := fun s => (Normal tt, f s, []).

(** A member access that may throw. *)
Definition member {S} (v : Js.value) (k : string) : M S Js.value :=
  match Js.member v k with
  | inl e => throw e
  | inr v' => mret v'
  end.

(** [p.then(f)]: [f] runs when [p] is resolved; the new promise is resolved
    with what [f] returns, rejected with what [f] throws, and rejected like
    [p] when [p] is rejected.  The reaction is run where the chain is built:
    the adapter's reactions only touch the object of their own invocation. *)
Definition then_ {S A B} (p : Js.promise A) (f : A -> M S B) : M S (Js.promise B) :=
  match p with
  | Js.Resolved a =>
      fun s =>
        match f a s with
        | (Normal b, s', t) => (Normal (Js.Resolved b), s', t)
        | (Throw e, s', t) => (Normal (Js.Rejected e), s', t)
        end
  | Js.Rejected e => mret (Js.Rejected e)
  end.

(** [p.catch(g)]: [g] runs when [p] is rejected. *)
Definition catch_ {S A} (p : Js.promise A) (g : Js.error -> M S A) : M S (Js.promise A) :=
  match p with
  | Js.Resolved a => mret (Js.Resolved a)
  | Js.Rejected e =>
      fun s =>
        match g e s with
        | (Normal b, s', t) => (Normal (Js.Resolved b), s', t)
        | (Throw e', s', t) => (Normal (Js.Rejected e'), s', t)
        end
  end.

(** [console.error(`${message}${e}`)] *)
Definition console_error {S} (message : string) (e : Js.error) : M S unit :=
  emit (ConsoleError message e).

(** *** The host's action object

    The action handed to [performAction] is an object of the host runtime.
    Its status is ['created'] when the host hands it over.  The host's
    [start] sets the status to ['pending'] and notifies the device of the
    action; its [finish] sets the status to ['completed'] and notifies the
    device again.  ['error'] is the status the adapter assigns itself. *)
Definition created : string := "created".
Definition pending : string := "pending".
Definition completed : string := "completed".

Definition set_status (st : string) (a : Action.t) : Action.t :=
  {| Action.name := Action.name a; Action.input := Action.input a; Action.status := st |}.

(** [this.actionNotify(action)], which the host's [start] and [finish] call
    as [this.device.actionNotify(this)]: the host is told the action's
    status. *)
Definition actionNotify : M Action.t unit :=
  st ← gets Action.status; emit (ActionNotify st).

(** [action.start()] *)
Definition start : M Action.t unit :=
  emit ActionStart;; modify (set_status pending);; actionNotify.

(** [action.finish()] *)
Definition finish : M Action.t unit :=
  emit ActionFinish;; modify (set_status completed);; actionNotify.

(** *** The device's tables *)

Definition set_properties (f : gmap string Property.t -> gmap string Property.t)
    (d : OnvifDevice) : OnvifDevice :=
  {| id := id d; this_camera := this_camera d; urn := urn d; name := name d;
     description := description d; context := context d; types := types d;
     properties := f (properties d); actions := actions d |}.

Definition set_actions (f : gmap string Schema.action -> gmap string Schema.action)
    (d : OnvifDevice) : OnvifDevice :=
  {| id := id d; this_camera := this_camera d; urn := urn d; name := name d;
     description := description d; context := context d; types := types d;
     properties := properties d; actions := f (actions d) |}.

(** [this.properties.set(k, p)] *)
Definition properties_set (k : string) (p : Property.t) : M OnvifDevice unit :=
  modify (set_properties (insert k p)).

(** [this.properties.get(k)]: [None] is [undefined]. *)
Definition properties_get (k : string) : M OnvifDevice (option Property.t) :=
  gets (fun d => properties d !! k).

(** Reading a member of what [properties.get] returned. *)
Definition the_property (k : string) (reading : string) : M OnvifDevice Property.t :=
  p ← properties_get k;
  match p with
  | Some p => mret p
  | None => throw (Js.TypeError ("Cannot read properties of undefined (reading '" ++ reading ++ "')"))
  end.

(** The device once the property object stored under [k] caches [v]; a
    device without such a property is left as it is. *)
Definition cache (k : string) (v : Js.value) (this : OnvifDevice) : OnvifDevice :=
  set_properties (alter (Property.setCachedValue v) k) this.

(** [prop.setCachedValue(v)] on the property object stored under [k]. *)
Definition setCachedValue (k : string) (v : Js.value) : M OnvifDevice unit :=
  modify (cache k v);;
  emit (SetCachedValue k v).

(** [this.notifyPropertyChanged(prop)] for the property object stored under
    [k]: the host is told the property's value. *)
Definition notifyPropertyChanged (k : string) : M OnvifDevice unit :=
  p ← properties_get k;
  emit (NotifyPropertyChanged k (from_option Property.value Js.VUndefined p)).

(** [this.addAction(k, metadata)] *)
Definition addAction (k : string) (metadata : Schema.action) : M OnvifDevice unit :=
  modify (set_actions (insert k metadata)).

(** ** The adapter: [OnvifDevice] *)

Definition SNAPSHOT_INTERVAL : Z := 10 * 1000.

(** [s.split(sep)] for a one-character separator. *)
Fixpoint split (sep : ascii) (s : string) : list string :=
  match s with
  | EmptyString => [""]
  | String c rest =>
      if Ascii.eqb c sep then "" :: split sep rest
      else
        match split sep rest with
        | seg :: segs => String c seg :: segs
        | [] => [String c ""]
        end
  end.

(** A read-only property, as every [new OnvifProperty(...)] of the
    constructor builds it. *)
Definition OnvifProperty (name label type : string) (v : Js.value) : Property.t :=
  {| Property.name := name;
     Property.descr := {| Property.label := label; Property.type := type;
                          Property.readOnly := true |};
     Property.value := v |}.

(** The schema of a speed of the ['move'] action. *)
Definition speed_schema : Schema.number_schema :=
  {| Schema.type := "number"; Schema.minimum := Some (-1)%float;
     Schema.maximum := Some 1%float; Schema.unit := None |}.

Definition timeout_schema : Schema.number_schema :=
  {| Schema.type := "number"; Schema.minimum := Some 0%float;
     Schema.maximum := None; Schema.unit := Some "seconds" |}.

Definition move_metadata : Schema.action :=
  {| Schema.label := "Move";
     Schema.input_schema := Some
       {| Schema.input_type := "object";
          Schema.required := ["speedX"; "speedY"; "speedZ"];
          Schema.properties :=
            [("speedX", speed_schema); ("speedY", speed_schema);
             ("speedZ", speed_schema); ("timeout", timeout_schema)] |} |}.

Definition stop_metadata : Schema.action :=
  {| Schema.label := "Stop"; Schema.input_schema := None |}.

(** The statements of the constructor after [super(adapter, id)] and the
    assignments to [this]. *)
Definition constructor_body (camera : camera) : M OnvifDevice unit :=
  emit (CameraAdd "snapshot");;
  let profile := getDefaultProfile camera in
  let video := VideoEncoderConfiguration profile in
  properties_set "streamUrl"
    (OnvifProperty "streamUrl" "Stream URL" "string" (Uri (StreamUri profile)));;
  properties_set "videoEncoding"
    (OnvifProperty "videoEncoding" "Video Encoding" "string" (Video.Encoding video));;
  properties_set "videoResolution"
    (OnvifProperty "videoResolution" "Video Resolution" "string"
       (Js.VStr (Js.to_string (Video.Width (Video.Resolution video)) ++ "x" ++
                 Js.to_string (Video.Height (Video.Resolution video)))));;
  properties_set "videoBitRate"
    (OnvifProperty "videoBitRate" "Video Bit Rate" "number"
       (Js.VNum (Js.parseInt (Video.BitrateLimit (Video.RateControl video)))));;
  properties_set "videoFrameRate"
    (OnvifProperty "videoFrameRate" "Video Frame Rate" "number"
       (Js.VNum (Js.parseInt (Video.FrameRateLimit (Video.RateControl video)))));;
  properties_set "videoQuality"
    (OnvifProperty "videoQuality" "Video Quality" "number"
       (Js.VNum (Js.parseInt (Video.Quality video))));;
  properties_set "snapshotMimeType"
    (OnvifProperty "snapshotMimeType" "Snapshot MIME Type" "string" Js.VNull);;
  properties_set "snapshot"
    (OnvifProperty "snapshot" "Snapshot" "binary" Js.VNull);;
  match AudioEncoderConfiguration profile with
  | Some audio =>
      properties_set "audioEncoding"
        (OnvifProperty "audioEncoding" "Audio Encoding" "string" (Audio.Encoding audio));;
      properties_set "audioBitRate"
        (OnvifProperty "audioBitRate" "Audio Bit Rate" "number"
           (Js.VNum (Js.parseInt (Audio.Bitrate audio))));;
      properties_set "audioSampleRate"
        (OnvifProperty "audioSampleRate" "Audio Sample Rate" "number"
           (Js.VNum (Js.parseInt (Audio.SampleRate audio))))
  | None => mret tt
  end;;
  match ptz camera with
  | Some _ => addAction "move" move_metadata;; addAction "stop" stop_metadata
  | None => mret tt
  end;;
  (if events camera then
     emit EventsGetEventProperties;;
     emit (EventsOn "messages");;
     emit (EventsOn "messages:error");;
     emit EventsStartPull
   else mret tt);;
  emit (SetInterval SNAPSHOT_INTERVAL).

(** [new OnvifDevice(adapter, data, camera)]: the device and the effects of
    its construction.  The adapter object is only handed on to the host's
    [Device] constructor, which leaves the tables empty. *)
Definition constructor (data : discovery) (camera : camera) : OnvifDevice * list event :=
  let id := default "undefined" (last (split ":" (data_urn data))) in
  let info := getInformation camera in
  let this :=
    {| id := "onvif-" ++ id;
       this_camera := camera;
       urn := data_urn data;
       name := data_name data;
       description := Manufacturer info ++ " " ++ Model info;
       context := "https://iot.mozilla.org/schemas";
       types := [];
       properties := ∅;
       actions := ∅ |} in
  let '(_, this, trace) := constructor_body camera this in
  (this, trace).

(** [snapshot()]: [fetch] is how the promise of this call to
    [camera.snapshot.getSnapshot()] settles. *)
Definition snapshot {S} (fetch : Js.promise snapshot_response) : M S (Js.promise snapshot_result) :=
  emit (GetSnapshot fetch);;
  then_ fetch (fun res => mret {| mimeType := res_mimeType res; buffer := image res |}).

(** The reaction of the poller to a fetched snapshot. *)
Definition on_snapshot (s : snapshot_result) : M OnvifDevice unit :=
  mime ← the_property "snapshotMimeType" "value";
  (if Js.is_null (Property.value mime) then
     setCachedValue "snapshotMimeType" (Js.VStr (mimeType s));;
     notifyPropertyChanged "snapshotMimeType"
   else mret tt);;
  _ ← the_property "snapshot" "setCachedValue";
  setCachedValue "snapshot" (Js.VStr (Js.base64 (buffer s)));;
  notifyPropertyChanged "snapshot".

(** One run of the callback given to [setInterval], with the promise its
    chain ends in. *)
Definition tick (fetch : Js.promise snapshot_response) : M OnvifDevice (Js.promise unit) :=
  p ← snapshot fetch;
  p ← then_ p on_snapshot;
  catch_ p (fun e => console_error "Error fetching snapshot: " e).

(** The poller over the device's lifetime: one tick per fetch, in the order
    in which the fetches settle; the timer drops the callback's result. *)
Fixpoint poll (fetches : list (Js.promise snapshot_response)) : M OnvifDevice unit :=
  match fetches with
  | [] => mret tt
  | fetch :: rest => tick fetch;; poll rest
  end.

(** The device after construction and the ticks of [fetches], with the
    events of the ticks. *)
Definition lifetime (data : discovery) (camera : camera)
    (fetches : list (Js.promise snapshot_response)) : OnvifDevice * list event :=
  let '(_, this, trace) := poll fetches (constructor data camera).1 in
  (this, trace).

(** [this.camera.ptz.m]: a [TypeError] when the camera has no PTZ service. *)
Definition camera_ptz {S} (this : OnvifDevice) (m : string) : M S ptz_service :=
  match ptz (this_camera this) with
  | Some service => mret service
  | None => throw (Js.TypeError ("Cannot read properties of undefined (reading '" ++ m ++ "')"))
  end.

(** [performAction(action)]: the statement runs on the action object; it
    returns the promise handed back to the caller, or throws. *)
Definition performAction (this : OnvifDevice) : M Action.t (Js.promise unit) :=
  name ← gets Action.name;
  if String.eqb name "move" then
    start;;
    input ← gets Action.input;
    x ← member input "speedX";
    y ← member input "speedY";
    z ← member input "speedZ";
    let velocity := {| x := x; y := y; z := z |} in
    t ← member input "timeout";
    let timeout := if Js.is_number t then t else Js.VNull in
    service ← camera_ptz this "continuousMove";
    let p := continuousMove service Js.VNull velocity timeout in
    emit (ContinuousMove Js.VNull velocity timeout p);;
    p ← then_ p (fun _ => finish);
    catch_ p (fun e =>
      console_error "Failed to move camera: " e;;
      modify (set_status "error");;
      actionNotify)
  else if String.eqb name "stop" then
    start;;
    service ← camera_ptz this "stop";
    let p := stop service in
    emit (Stop p);;
    p ← then_ p (fun _ => finish);
    catch_ p (fun e =>
      console_error "Failed to stop camera: " e;;
      modify (set_status "error");;
      actionNotify)
  else
    modify (set_status "error");;
    actionNotify;;
    mret (Js.Resolved tt).

(** ** Observations on runs *)

Definition result_of {S A} (r : completion A * S * list event) : completion A := r.1.1.
Definition state_of {S A} (r : completion A * S * list event) : S := r.1.2.
Definition trace_of {S A} (r : completion A * S * list event) : list event := r.2.

(** The cached value of the property registered under [k], if any. *)
Definition property_value (this : OnvifDevice) (k : string) : option Js.value :=
  Property.value <$> properties this !! k.

(** Whether a property is registered under [k]. *)
Definition registered (this : OnvifDevice) (k : string) : bool :=
  bool_decide (is_Some (properties this !! k)).

Definition is_write (k : string) (ev : event) : bool :=
  match ev with
  | SetCachedValue k' _ => String.eqb k' k
  | _ => false
  end.

Definition is_property_notification (ev : event) : bool :=
  match ev with
  | NotifyPropertyChanged _ _ => true
  | _ => false
  end.

Definition is_action_notification (ev : event) : bool :=
  match ev with
  | ActionNotify _ => true
  | _ => false
  end.

Definition is_camera_call (ev : event) : bool :=
  match ev with
  | GetSnapshot _ | ContinuousMove _ _ _ _ | Stop _ => true
  | _ => false
  end.

(** How many events of a trace satisfy [p]. *)
Definition count (p : event -> bool) (trace : list event) : nat :=
  length (List.filter p trace).

(** The response of the first fetch that succeeded. *)
Fixpoint first_resolved {A} (fetches : list (Js.promise A)) : option A :=
  match fetches with
  | [] => None
  | Js.Resolved a :: _ => Some a
  | Js.Rejected _ :: rest => first_resolved rest
  end.

(** A speed within [-1.0, 1.0], a timeout that is not negative: what the
    schema of ['move'] asks of its input. *)
Definition speed_in_range (v : Js.value) : bool :=
  match v with
  | Js.VNum n => PrimFloat.leb (-1)%float n && PrimFloat.leb n 1%float
  | _ => false
  end.

Definition timeout_in_range (v : Js.value) : bool :=
  match v with
  | Js.VNum n => PrimFloat.leb 0%float n
  | _ => true
  end.

(** The device has the two properties the poller writes. *)
Definition pollable (this : OnvifDevice) : Prop :=
  is_Some (properties this !! "snapshotMimeType") ∧
  is_Some (properties this !! "snapshot").

(** [v] is [undefined] or [null]: a member access on it throws. *)
Definition nullish (v : Js.value) : bool :=
  match v with
  | Js.VUndefined | Js.VNull => true
  | _ => false
  end.

(** The member [k] of an input that is not nullish. *)
Definition input_member (input : Js.value) (k : string) : Js.value :=
  match Js.member input k with
  | inr v => v
  | inl _ => Js.VUndefined
  end.

(** The velocity and the timeout that ['move'] reads from its input. *)
Definition velocity_of (input : Js.value) : velocity :=
  {| x := input_member input "speedX";
     y := input_member input "speedY";
     z := input_member input "speedZ" |}.

Definition timeout_of (input : Js.value) : Js.value :=
  let t := input_member input "timeout" in
  if Js.is_number t then t else Js.VNull.

Definition is_rejected_ptz_call (ev : event) : bool :=
  match ev with
  | ContinuousMove _ _ _ (Js.Rejected _) | Stop (Js.Rejected _) => true
  | _ => false
  end.

Definition is_console_error (ev : event) : bool :=
  match ev with
  | ConsoleError _ _ => true
  | _ => false
  end.

(** A notification of an action whose status is ['error']. *)
Definition is_error_notification (ev : event) : bool :=
  match ev with
  | ActionNotify status => String.eqb status "error"
  | _ => false
  end.

(** ** Sample inputs *)

(** The video block [{Encoding: "H264", Resolution: {Width: 1920, Height:
    1080}, RateControl: {BitrateLimit: "4096", FrameRateLimit: "30"},
    Quality: "5.0"}]. *)
Definition example_video : Video.configuration :=
  {| Video.Encoding := Js.VStr "H264";
     Video.Resolution := {| Video.Width := Js.SInt 1920; Video.Height := Js.SInt 1080 |};
     Video.RateControl :=
       {| Video.BitrateLimit := Js.SStr "4096"; Video.FrameRateLimit := Js.SStr "30" |};
     Video.Quality := Js.SStr "5.0" |}.

Definition example_profile : profile :=
  {| StreamUri := {| Uri := Js.VStr "rtsp://192.168.1.20/stream1" |};
     VideoEncoderConfiguration := example_video;
     AudioEncoderConfiguration := None |}.

Definition example_data : discovery :=
  {| data_urn := "urn:uuid:4d454930-0000-1000-8000-0012414fb6a4";
     data_name := "Front door" |}.

(** A PTZ service all of whose calls settle as [outcome]. *)
Definition ptz_settling (outcome : Js.promise unit) : ptz_service :=
  {| continuousMove := fun _ _ _ => outcome; stop := outcome |}.

Definition broken_motor : Js.error := Js.Reason (Js.VStr "motor fault").

(** A camera with a PTZ service, and a fixed one without. *)
Definition ptz_camera (outcome : Js.promise unit) : camera :=
  {| getInformation := {| Manufacturer := "Acme"; Model := "Dome 2" |};
     getDefaultProfile := example_profile;
     ptz := Some (ptz_settling outcome);
     events := false |}.

Definition fixed_camera : camera :=
  {| getInformation := {| Manufacturer := "Acme"; Model := "Bullet 1" |};
     getDefaultProfile := example_profile;
     ptz := None;
     events := false |}.

Definition ptz_device (outcome : Js.promise unit) : OnvifDevice :=
  (constructor example_data (ptz_camera outcome)).1.

Definition fixed_device : OnvifDevice := (constructor example_data fixed_camera).1.

(** A ['move'] with [{speedX: 0.5, speedY: -0.5, speedZ: 0, timeout: 3}]. *)
Definition example_move : Action.t :=
  {| Action.name := "move";
     Action.input :=
       Js.VObj [("speedX", Js.VNum 0.5%float); ("speedY", Js.VNum (-0.5)%float);
                ("speedZ", Js.VNum 0%float); ("timeout", Js.VNum 3%float)];
     Action.status := created |}.

(** A ['move'] with speeds beyond [-1.0, 1.0] and a negative timeout. *)
Definition wild_move : Action.t :=
  {| Action.name := "move";
     Action.input :=
       Js.VObj [("speedX", Js.VNum 2%float); ("speedY", Js.VNum (-1.5)%float);
                ("speedZ", Js.VNum 0%float); ("timeout", Js.VNum (-1)%float)];
     Action.status := created |}.

(** A ['move'] that carries no input. *)
Definition bare_move : Action.t :=
  {| Action.name := "move"; Action.input := Js.VUndefined; Action.status := created |}.

Definition example_stop : Action.t :=
  {| Action.name := "stop"; Action.input := Js.VUndefined; Action.status := created |}.

(** An action the adapter does not know. *)
Definition example_zoom : Action.t :=
  {| Action.name := "zoom"; Action.input := Js.VObj [("factor", Js.VNum 2%float)];
     Action.status := created |}.

Definition jpeg (bytes : list Byte.byte) : snapshot_response :=
  {| res_mimeType := "image/jpeg"; image := bytes |}.

Definition png (bytes : list Byte.byte) : snapshot_response :=
  {| res_mimeType := "image/png"; image := bytes |}.

(** ** Further observations *)

Definition is_resolved {A} (p : Js.promise A) : bool :=
  match p with Js.Resolved _ => true | Js.Rejected _ => false end.

Definition is_any_write (ev : event) : bool :=
  match ev with SetCachedValue _ _ => true | _ => false end.

Definition is_snapshot_fetch (ev : event) : bool :=
  match ev with GetSnapshot _ => true | _ => false end.

Definition is_ptz_call (ev : event) : bool :=
  match ev with ContinuousMove _ _ _ _ | Stop _ => true | _ => false end.

(** An event of the reaction to a snapshot: a write of a property or the
    notification of one. *)
Definition is_publication (ev : event) : bool :=
  is_any_write ev || is_property_notification ev.

(** The states the reaction to [s] can leave a device in. *)
Inductive published (s : snapshot_result) (this : OnvifDevice) : OnvifDevice -> Prop :=
| published_nothing : published s this this
| published_mime :
    published s this (cache "snapshotMimeType" (Js.VStr (mimeType s)) this)
| published_picture :
    published s this (cache "snapshot" (Js.VStr (Js.base64 (buffer s))) this)
| published_both :
    published s this
      (cache "snapshot" (Js.VStr (Js.base64 (buffer s)))
         (cache "snapshotMimeType" (Js.VStr (mimeType s)) this)).

Definition video_property_names : gset string :=
  {[ "streamUrl"; "videoEncoding"; "videoResolution"; "videoBitRate";
     "videoFrameRate"; "videoQuality"; "snapshotMimeType"; "snapshot" ]}.

Definition audio_property_names : gset string :=
  {[ "audioEncoding"; "audioBitRate"; "audioSampleRate" ]}.

(** A property is registered under its own name and is read-only. *)
Definition well_registered (k : string) (p : Property.t) : Prop :=
  Property.name p = k ∧ Property.readOnly (Property.descr p) = true.

(** What of a property the poller leaves alone: its name and description. *)
Definition metadata (p : Property.t) : string * Property.description :=
  (Property.name p, Property.descr p).

(** The properties of a profile, in the order of their registration. *)
Definition property_table (profile : profile) : list Property.t :=
  let video := VideoEncoderConfiguration profile in
  [ OnvifProperty "streamUrl" "Stream URL" "string" (Uri (StreamUri profile));
    OnvifProperty "videoEncoding" "Video Encoding" "string" (Video.Encoding video);
    OnvifProperty "videoResolution" "Video Resolution" "string"
      (Js.VStr (Js.to_string (Video.Width (Video.Resolution video)) ++ "x" ++
                Js.to_string (Video.Height (Video.Resolution video))));
    OnvifProperty "videoBitRate" "Video Bit Rate" "number"
      (Js.VNum (Js.parseInt (Video.BitrateLimit (Video.RateControl video))));
    OnvifProperty "videoFrameRate" "Video Frame Rate" "number"
      (Js.VNum (Js.parseInt (Video.FrameRateLimit (Video.RateControl video))));
    OnvifProperty "videoQuality" "Video Quality" "number"
      (Js.VNum (Js.parseInt (Video.Quality video)));
    OnvifProperty "snapshotMimeType" "Snapshot MIME Type" "string" Js.VNull;
    OnvifProperty "snapshot" "Snapshot" "binary" Js.VNull ] ++
  match AudioEncoderConfiguration profile with
  | Some audio =>
      [ OnvifProperty "audioEncoding" "Audio Encoding" "string" (Audio.Encoding audio);
        OnvifProperty "audioBitRate" "Audio Bit Rate" "number"
          (Js.VNum (Js.parseInt (Audio.Bitrate audio)));
        OnvifProperty "audioSampleRate" "Audio Sample Rate" "number"
          (Js.VNum (Js.parseInt (Audio.SampleRate audio))) ]
  | None => []
  end.

(** The table that results from registering [ps] one after the other, each
    under its name. *)
Definition registry (ps : list Property.t) : gmap string Property.t :=
  foldl (fun m p => <[Property.name p := p]> m) ∅ ps.

(** The response of the last fetch that succeeded. *)
Fixpoint last_resolved {A} (fetches : list (Js.promise A)) : option A :=
  match fetches with
  | [] => None
  | fetch :: rest =>
      match last_resolved rest, fetch with
      | Some a, _ => Some a
      | None, Js.Resolved a => Some a
      | None, Js.Rejected _ => None
      end
  end.

(** How many fetches succeeded. *)
Definition successes {A} (fetches : list (Js.promise A)) : nat :=
  length (List.filter is_resolved fetches).

Definition is_finish (ev : event) : bool :=
  match ev with ActionFinish => true | _ => false end.

Definition is_start (ev : event) : bool :=
  match ev with ActionStart => true | _ => false end.

(** Whether [c] occurs in [s]. *)
Fixpoint occurs (c : ascii) (s : string) : bool :=
  match s with
  | EmptyString => false
  | String c' rest => Ascii.eqb c' c || occurs c rest
  end.

(** [segments.join(sep)] *)
Fixpoint join (sep : ascii) (segments : list string) : string :=
  match segments with
  | [] => ""
  | [seg] => seg
  | seg :: rest => seg ++ String sep (join sep rest)
  end.

Definition is_timer (ev : event) : bool :=
  match ev with SetInterval _ => true | _ => false end.

(** Whether [s] begins with a decimal digit. *)
Definition starts_with_digit (s : string) : bool :=
  match s with
  | String c _ => bool_decide (is_Some (Js.digit_of c))
  | EmptyString => false
  end.

(** The scalar [v] is the integer [n]: as a Number, or as a string made of
    the decimal digits of [n] and of text that does not go on with a digit. *)
Definition denotes (v : Js.scalar) (n : Z) : Prop :=
  v = Js.SInt n ∨
  ∃ rest, starts_with_digit rest = false ∧ v = Js.SStr (pretty n ++ rest).

Definition example_audio : Audio.configuration :=
  {| Audio.Encoding := Js.VStr "AAC"; Audio.Bitrate := Js.SStr "64";
     Audio.SampleRate := Js.SInt 16 |}.

(** A fixed camera with sound. *)
Definition audio_camera : camera :=
  {| getInformation := {| Manufacturer := "Acme"; Model := "Bullet 1" |};
     getDefaultProfile :=
       {| StreamUri := {| Uri := Js.VStr "rtsp://192.168.1.21/stream1" |};
          VideoEncoderConfiguration := example_video;
          AudioEncoderConfiguration := Some example_audio |};
     ptz := None;
     events := true |}.

(** * Properties *)

(** ** The built-ins, on samples *)

Example parseInt_stops_at_the_point : Js.parseInt (Js.SStr "5.0") = 5%float.
Proof. reflexivity. Qed.

Example parseInt_skips_space_and_reads_sign : Js.parseInt (Js.SStr "  -12px") = (-12)%float.
Proof. reflexivity. Qed.

Example parseInt_of_a_number : Js.parseInt (Js.SInt 4096) = 4096%float.
Proof. reflexivity. Qed.

Example parseInt_without_digits :
  PrimFloat.is_nan (Js.parseInt (Js.SStr "high")) = true ∧
  PrimFloat.is_nan (Js.parseInt Js.SUndefined) = true.
Proof. split; reflexivity. Qed.

Example to_string_of_numbers :
  Js.to_string (Js.SInt 1920) = "1920" ∧ Js.to_string (Js.SInt (-7)) = "-7" ∧
  Js.to_string (Js.SInt 0) = "0".
Proof. repeat split. Qed.

Example base64_of_three_bytes : Js.base64 [Byte.x4d; Byte.x61; Byte.x6e] = "TWFu".
Proof. reflexivity. Qed.

Example base64_pads_two_bytes : Js.base64 [Byte.x4d; Byte.x61] = "TWE=".
Proof. reflexivity. Qed.

Example base64_pads_one_byte : Js.base64 [Byte.x4d] = "TQ==".
Proof. reflexivity. Qed.

Example base64_of_high_bytes :
  Js.base64 [Byte.xff; Byte.xfe; Byte.xfd; Byte.x00] = "//79AA==".
Proof. reflexivity. Qed.

Example split_urn : split ":" "urn:uuid:12ab" = ["urn"; "uuid"; "12ab"].
Proof. reflexivity. Qed.

Example example_device_identity :
  id fixed_device = "onvif-4d454930-0000-1000-8000-0012414fb6a4" ∧
  description fixed_device = "Acme Bullet 1".
Proof. split; reflexivity. Qed.

(** ** Running statements *)

Section Run.
Context {S : Type}.

Lemma bind_run {A B} (m : M S A) (f : A -> M S B) (s : S) :
  (m ≫= f) s =
  match m s with
  | (Normal a, s', t) => let '(r, s'', t') := f a s' in (r, s'', (t ++ t')%list)
  | (Throw e, s', t) => (Throw e, s', t)
  end.
Proof. reflexivity. Qed.

Lemma state_of_run {A} (r : completion A) (s : S) t : state_of (r, s, t) = s.
Proof. reflexivity. Qed.

Lemma trace_of_run {A} (r : completion A) (s : S) t : trace_of (r, s, t) = t.
Proof. reflexivity. Qed.

Lemma result_of_run {A} (r : completion A) (s : S) t : result_of (r, s, t) = r.
Proof. reflexivity. Qed.

Lemma snapshot_resolved res (s : S) :
  snapshot (Js.Resolved res) s =
  (Normal (Js.Resolved {| mimeType := res_mimeType res; buffer := image res |}), s,
   [GetSnapshot (Js.Resolved res)]).
Proof. reflexivity. Qed.

End Run.

Lemma count_app p t1 t2 : count p (t1 ++ t2) = (count p t1 + count p t2)%nat.
Proof. unfold count. by rewrite List.filter_app, length_app. Qed.

Ltac observe := rewrite ?state_of_run, ?trace_of_run, ?result_of_run.

Ltac run_with H :=
  first [rewrite H | rewrite bind_run, H]; cbv beta iota zeta; cbn [app].

(** ** The property table *)

Lemma the_property_Some k reading this p :
  properties this !! k = Some p ->
  the_property k reading this = (Normal p, this, []).
Proof.
  intros H. unfold the_property, properties_get.
  rewrite bind_run. unfold gets. by rewrite H.
Qed.

Lemma setCachedValue_run k v this :
  setCachedValue k v this = (Normal tt, cache k v this, [SetCachedValue k v]).
Proof. reflexivity. Qed.

Lemma notifyPropertyChanged_run k this :
  notifyPropertyChanged k this =
  (Normal tt, this,
   [NotifyPropertyChanged k (default Js.VUndefined (property_value this k))]).
Proof.
  unfold notifyPropertyChanged, property_value, properties_get.
  rewrite bind_run. unfold gets, emit. by destruct (properties this !! k).
Qed.

Lemma property_value_cache k v this :
  is_Some (properties this !! k) ->
  property_value (cache k v this) k = Some v.
Proof.
  intros [p Hp]. unfold property_value, cache, set_properties; simpl.
  by rewrite lookup_alter_eq, Hp.
Qed.

Lemma property_value_cache_ne k k' v this :
  k ≠ k' -> property_value (cache k v this) k' = property_value this k'.
Proof.
  intros Hne. unfold property_value, cache, set_properties; simpl.
  by rewrite lookup_alter_ne.
Qed.

(** Caching a value registers nothing and unregisters nothing. *)
Lemma lookup_cache k k' v this :
  is_Some (properties (cache k v this) !! k') <-> is_Some (properties this !! k').
Proof. unfold cache, set_properties; simpl. apply lookup_alter_is_Some. Qed.

Lemma pollable_cache k v this : pollable this -> pollable (cache k v this).
Proof. intros [Hm Hs]. split; by apply lookup_cache. Qed.

Ltac run :=
  first [run_with setCachedValue_run | run_with notifyPropertyChanged_run].

(** ** The snapshot poller *)

(** The reaction to a snapshot on a device with its two properties: the
    MIME type is cached when none is, the picture always. *)
Lemma on_snapshot_run s this :
  pollable this ->
  on_snapshot s this =
  let mime := Js.VStr (mimeType s) in
  let picture := Js.VStr (Js.base64 (buffer s)) in
  if Js.is_null (default Js.VUndefined (property_value this "snapshotMimeType")) then
    (Normal tt, cache "snapshot" picture (cache "snapshotMimeType" mime this),
     [SetCachedValue "snapshotMimeType" mime;
      NotifyPropertyChanged "snapshotMimeType" mime;
      SetCachedValue "snapshot" picture;
      NotifyPropertyChanged "snapshot" picture])
  else
    (Normal tt, cache "snapshot" picture this,
     [SetCachedValue "snapshot" picture;
      NotifyPropertyChanged "snapshot" picture]).
Proof.
  intros Hp. pose proof Hp as [[pm Hm] [ps Hs]]. unfold on_snapshot.
  run_with (the_property_Some _ "value" _ _ Hm).
  replace (default Js.VUndefined (property_value this "snapshotMimeType"))
    with (Property.value pm) by (unfold property_value; by rewrite Hm).
  destruct (Js.is_null (Property.value pm)).
  - rewrite bind_run. do 2 run.
    assert (is_Some (properties (cache "snapshotMimeType" (Js.VStr (mimeType s)) this)
                       !! "snapshot")) as [ps' Hs'] by (by apply lookup_cache).
    run_with (the_property_Some _ "setCachedValue" _ _ Hs'). do 2 run.
    rewrite !property_value_cache; [done | by apply lookup_cache | done].
  - rewrite bind_run. cbv beta iota zeta. unfold mret at 1, M_ret at 1.
    cbv beta iota zeta.
    run_with (the_property_Some _ "setCachedValue" _ _ Hs). do 2 run.
    rewrite !property_value_cache; done.
Qed.

Lemma tick_rejected e this :
  tick (Js.Rejected e) this =
  (Normal (Js.Resolved tt), this,
   [GetSnapshot (Js.Rejected e); ConsoleError "Error fetching snapshot: " e]).
Proof. reflexivity. Qed.

Lemma tick_resolved res this :
  pollable this ->
  tick (Js.Resolved res) this =
  let mime := Js.VStr (res_mimeType res) in
  let picture := Js.VStr (Js.base64 (image res)) in
  if Js.is_null (default Js.VUndefined (property_value this "snapshotMimeType")) then
    (Normal (Js.Resolved tt),
     cache "snapshot" picture (cache "snapshotMimeType" mime this),
     [GetSnapshot (Js.Resolved res);
      SetCachedValue "snapshotMimeType" mime;
      NotifyPropertyChanged "snapshotMimeType" mime;
      SetCachedValue "snapshot" picture;
      NotifyPropertyChanged "snapshot" picture])
  else
    (Normal (Js.Resolved tt), cache "snapshot" picture this,
     [GetSnapshot (Js.Resolved res);
      SetCachedValue "snapshot" picture;
      NotifyPropertyChanged "snapshot" picture]).
Proof.
  intros Hp. unfold tick.
  run_with (snapshot_resolved (S:=OnvifDevice) res).
  rewrite bind_run. unfold then_. rewrite (on_snapshot_run _ _ Hp).
  cbn [mimeType buffer]. cbv zeta.
  by destruct (Js.is_null _).
Qed.

Lemma tick_resolved_first res this :
  pollable this ->
  property_value this "snapshotMimeType" = Some Js.VNull ->
  tick (Js.Resolved res) this =
  let mime := Js.VStr (res_mimeType res) in
  let picture := Js.VStr (Js.base64 (image res)) in
  (Normal (Js.Resolved tt),
   cache "snapshot" picture (cache "snapshotMimeType" mime this),
   [GetSnapshot (Js.Resolved res);
    SetCachedValue "snapshotMimeType" mime;
    NotifyPropertyChanged "snapshotMimeType" mime;
    SetCachedValue "snapshot" picture;
    NotifyPropertyChanged "snapshot" picture]).
Proof. intros Hp Hnull. rewrite (tick_resolved _ _ Hp). by rewrite Hnull. Qed.

Lemma tick_resolved_later res this :
  pollable this ->
  Js.is_null (default Js.VUndefined (property_value this "snapshotMimeType")) = false ->
  tick (Js.Resolved res) this =
  let picture := Js.VStr (Js.base64 (image res)) in
  (Normal (Js.Resolved tt), cache "snapshot" picture this,
   [GetSnapshot (Js.Resolved res);
    SetCachedValue "snapshot" picture;
    NotifyPropertyChanged "snapshot" picture]).
Proof. intros Hp Hnull. rewrite (tick_resolved _ _ Hp). by rewrite Hnull. Qed.

(** A tick never throws and its chain never ends rejected. *)
Lemma tick_result fetch this :
  pollable this -> result_of (tick fetch this) = Normal (Js.Resolved tt).
Proof.
  intros Hp. destruct fetch as [res|e]; [|done].
  rewrite (tick_resolved _ _ Hp). cbv zeta. by destruct (Js.is_null _).
Qed.

Lemma tick_registered fetch this k :
  pollable this ->
  is_Some (properties (state_of (tick fetch this)) !! k) <-> is_Some (properties this !! k).
Proof.
  intros Hp. destruct fetch as [res|e]; [|done].
  rewrite (tick_resolved _ _ Hp). cbv zeta.
  destruct (Js.is_null _); observe; by rewrite !lookup_cache.
Qed.

Lemma tick_pollable fetch this : pollable this -> pollable (state_of (tick fetch this)).
Proof. intros Hp. pose proof Hp as [Hm Hs]. split; by apply tick_registered. Qed.

Lemma poll_cons fetch rest this :
  pollable this ->
  poll (fetch :: rest) this =
  (result_of (poll rest (state_of (tick fetch this))),
   state_of (poll rest (state_of (tick fetch this))),
   (trace_of (tick fetch this) ++ trace_of (poll rest (state_of (tick fetch this))))%list).
Proof.
  intros Hp. pose proof (tick_result fetch this Hp) as Hr.
  cbn [poll]. rewrite bind_run.
  destruct (tick fetch this) as [[r this'] t]. rewrite result_of_run in Hr. subst r.
  observe. by destruct (poll rest this') as [[? ?] ?].
Qed.

(** The poller runs every tick it is given. *)
Lemma poll_result fetches this : pollable this -> result_of (poll fetches this) = Normal tt.
Proof.
  revert this. induction fetches as [|fetch rest IH]; intros this Hp; [done|].
  rewrite (poll_cons _ _ _ Hp). observe. apply IH, tick_pollable, Hp.
Qed.

Lemma poll_registered fetches this k :
  pollable this ->
  is_Some (properties (state_of (poll fetches this)) !! k) <-> is_Some (properties this !! k).
Proof.
  revert this. induction fetches as [|fetch rest IH]; intros this Hp; [done|].
  rewrite (poll_cons _ _ _ Hp). observe.
  rewrite IH by (by apply tick_pollable). by apply tick_registered.
Qed.

Lemma poll_pollable fetches this : pollable this -> pollable (state_of (poll fetches this)).
Proof. intros Hp. pose proof Hp as [Hm Hs]. split; by apply poll_registered. Qed.

Lemma registered_poll fetches this k :
  pollable this -> registered (state_of (poll fetches this)) k = registered this k.
Proof. intros Hp. apply bool_decide_ext. by apply poll_registered. Qed.

(** Once a MIME type is cached, a tick neither writes it nor changes it. *)
Lemma tick_mime_kept fetch this :
  pollable this ->
  Js.is_null (default Js.VUndefined (property_value this "snapshotMimeType")) = false ->
  property_value (state_of (tick fetch this)) "snapshotMimeType"
    = property_value this "snapshotMimeType" ∧
  count (is_write "snapshotMimeType") (trace_of (tick fetch this)) = 0%nat.
Proof.
  intros Hp Hnull. destruct fetch as [res|e]; [|done].
  rewrite (tick_resolved_later _ _ Hp Hnull). cbv zeta.
  observe. split; [|done].
  by apply property_value_cache_ne.
Qed.

Lemma poll_mime_kept fetches this :
  pollable this ->
  Js.is_null (default Js.VUndefined (property_value this "snapshotMimeType")) = false ->
  property_value (state_of (poll fetches this)) "snapshotMimeType"
    = property_value this "snapshotMimeType" ∧
  count (is_write "snapshotMimeType") (trace_of (poll fetches this)) = 0%nat.
Proof.
  revert this. induction fetches as [|fetch rest IH]; intros this Hp Hnull; [done|].
  rewrite (poll_cons _ _ _ Hp). observe.
  destruct (tick_mime_kept fetch this Hp Hnull) as [Hv Hc].
  destruct (IH (state_of (tick fetch this))) as [Hv' Hc'].
  { by apply tick_pollable. }
  { by rewrite Hv. }
  split; [by rewrite Hv'|]. by rewrite count_app, Hc, Hc'.
Qed.

(** While no MIME type is cached, the first fetch that succeeds sets it,
    with one write. *)
Lemma poll_mime_first fetches this :
  pollable this ->
  property_value this "snapshotMimeType" = Some Js.VNull ->
  property_value (state_of (poll fetches this)) "snapshotMimeType"
    = Some (from_option (λ res, Js.VStr (res_mimeType res)) Js.VNull
              (first_resolved fetches)) ∧
  count (is_write "snapshotMimeType") (trace_of (poll fetches this))
    = (if first_resolved fetches is Some _ then 1 else 0)%nat.
Proof.
  revert this. induction fetches as [|fetch rest IH]; intros this Hp Hnull; [done|].
  rewrite (poll_cons _ _ _ Hp). observe.
  destruct fetch as [res|e].
  - destruct (poll_mime_kept rest (state_of (tick (Js.Resolved res) this))) as [Hv Hc].
    { by apply tick_pollable. }
    { rewrite (tick_resolved_first _ _ Hp Hnull). cbv zeta. observe.
      rewrite property_value_cache_ne by done.
      rewrite property_value_cache; [done | apply Hp]. }
    rewrite Hv, count_app, Hc. clear Hv Hc.
    rewrite (tick_resolved_first _ _ Hp Hnull). cbv zeta. observe.
    rewrite property_value_cache_ne by done.
    rewrite property_value_cache; [done | apply Hp].
  - rewrite tick_rejected. observe. by apply IH.
Qed.

Lemma first_resolved_app {A} (fetches later : list (Js.promise A)) a :
  first_resolved (fetches ++ Js.Resolved a :: later)
  = first_resolved (fetches ++ [Js.Resolved a]).
Proof. induction fetches as [|[b|e] rest IH]; by simpl. Qed.

(** ** The constructor *)

Lemma constructor_camera data camera : this_camera (constructor data camera).1 = camera.
Proof.
  destruct camera as [info [uri video audio] service has_events].
  by destruct audio, service, has_events.
Qed.

(** Both snapshot properties are registered, with the value [null]. *)
Lemma constructor_snapshot_properties data camera :
  property_value (constructor data camera).1 "snapshotMimeType" = Some Js.VNull ∧
  property_value (constructor data camera).1 "snapshot" = Some Js.VNull.
Proof.
  destruct camera as [info [uri video audio] service has_events].
  by destruct audio, service, has_events.
Qed.

Lemma constructor_pollable data camera : pollable (constructor data camera).1.
Proof.
  destruct (constructor_snapshot_properties data camera) as [Hm Hs].
  unfold property_value in *. split.
  - by destruct (properties _ !! "snapshotMimeType").
  - by destruct (properties _ !! "snapshot").
Qed.

Lemma constructor_audio_registered data camera :
  let this := (constructor data camera).1 in
  (registered this "audioEncoding", registered this "audioBitRate",
   registered this "audioSampleRate")
  = if AudioEncoderConfiguration (getDefaultProfile camera) is Some _
    then (true, true, true) else (false, false, false).
Proof.
  destruct camera as [info [uri video audio] service has_events].
  by destruct audio, service, has_events.
Qed.

(** The actions are registered exactly on a camera with a PTZ service. *)
Lemma constructor_actions data camera :
  actions (constructor data camera).1 =
  if ptz camera is Some _
  then <["stop" := stop_metadata]> (<["move" := move_metadata]> ∅)
  else ∅.
Proof.
  destruct camera as [info [uri video audio] service has_events].
  by destruct audio, service, has_events.
Qed.

Lemma lifetime_run data camera fetches :
  lifetime data camera fetches =
  (state_of (poll fetches (constructor data camera).1),
   trace_of (poll fetches (constructor data camera).1)).
Proof. unfold lifetime. by destruct (poll _ _) as [[? ?] ?]. Qed.

Lemma lifetime_mime data camera fetches :
  property_value (lifetime data camera fetches).1 "snapshotMimeType"
    = Some (from_option (λ res, Js.VStr (res_mimeType res)) Js.VNull
              (first_resolved fetches)) ∧
  count (is_write "snapshotMimeType") (lifetime data camera fetches).2
    = (if first_resolved fetches is Some _ then 1 else 0)%nat.
Proof.
  rewrite lifetime_run. cbn [fst snd]. apply poll_mime_first.
  - apply constructor_pollable.
  - apply constructor_snapshot_properties.
Qed.

(** C1: after construction, and after any number of poller ticks, the three
    audio properties (audioEncoding, audioBitRate, audioSampleRate) are all
    registered when the profile has the audio encoder configuration block
    and none of them is when it has not: never only some of them. *)
Theorem audio_properties_all_or_none data camera fetches :
  let this := (lifetime data camera fetches).1 in
  (registered this "audioEncoding", registered this "audioBitRate",
   registered this "audioSampleRate")
  = if AudioEncoderConfiguration (getDefaultProfile camera) is Some _
    then (true, true, true) else (false, false, false).
Proof.
  cbv zeta. rewrite lifetime_run. cbn [fst].
  rewrite !registered_poll by apply constructor_pollable.
  apply constructor_audio_registered.
Qed.

(** C7: for a profile whose video block is Encoding "H264", Resolution
    1920 by 1080, BitrateLimit "4096", FrameRateLimit "30", Quality "5.0"
    (whatever the rest of the profile, the camera and the discovery data),
    construction registers videoEncoding "H264", videoResolution
    "1920x1080", videoBitRate 4096, videoFrameRate 30 and videoQuality 5. *)
Theorem example_profile_video_properties data info uri audio service has_events :
  let profile :=
    {| StreamUri := uri; VideoEncoderConfiguration := example_video;
       AudioEncoderConfiguration := audio |} in
  let camera :=
    {| getInformation := info; getDefaultProfile := profile;
       ptz := service; events := has_events |} in
  let this := (constructor data camera).1 in
  property_value this "videoEncoding" = Some (Js.VStr "H264") ∧
  property_value this "videoResolution" = Some (Js.VStr "1920x1080") ∧
  property_value this "videoBitRate" = Some (Js.VNum 4096%float) ∧
  property_value this "videoFrameRate" = Some (Js.VNum 30%float) ∧
  property_value this "videoQuality" = Some (Js.VNum 5%float).
Proof. by destruct audio, service, has_events. Qed.

(** C2: over the lifetime of a device (its construction and then any
    sequence of ticks), the poller writes snapshotMimeType at most once; the
    value is the MIME type of the first fetch that succeeded ([null] while
    none has), so what was set by a successful fetch is the same after any
    later ticks, whatever MIME types they report. *)
Theorem snapshotMimeType_set_at_most_once data camera fetches :
  (count (is_write "snapshotMimeType") (lifetime data camera fetches).2 <= 1)%nat ∧
  property_value (lifetime data camera fetches).1 "snapshotMimeType"
    = Some (from_option (λ res, Js.VStr (res_mimeType res)) Js.VNull
              (first_resolved fetches)) ∧
  ∀ res later,
    property_value (lifetime data camera (fetches ++ Js.Resolved res :: later)).1
      "snapshotMimeType"
    = property_value (lifetime data camera (fetches ++ [Js.Resolved res])).1
        "snapshotMimeType".
Proof.
  destruct (lifetime_mime data camera fetches) as [Hv Hc]. split; [|split].
  - rewrite Hc. destruct (first_resolved fetches); lia.
  - exact Hv.
  - intros res later.
    rewrite (proj1 (lifetime_mime data camera (fetches ++ Js.Resolved res :: later))).
    rewrite (proj1 (lifetime_mime data camera (fetches ++ [Js.Resolved res]))).
    by rewrite first_resolved_app.
Qed.

(** C3: at any point of a device's lifetime, a tick whose fetch succeeds
    caches the base64 encoding of the fetched bytes in the snapshot property
    (one write) and then notifies the change, whatever was cached before. *)
Theorem snapshot_overwritten_on_every_success data camera fetches res :
  let this := (lifetime data camera fetches).1 in
  let picture := Js.VStr (Js.base64 (image res)) in
  let run := tick (Js.Resolved res) this in
  result_of run = Normal (Js.Resolved tt) ∧
  property_value (state_of run) "snapshot" = Some picture ∧
  count (is_write "snapshot") (trace_of run) = 1%nat ∧
  ∃ before,
    trace_of run
    = (before ++ [SetCachedValue "snapshot" picture;
                  NotifyPropertyChanged "snapshot" picture])%list.
Proof.
  cbv zeta. rewrite lifetime_run. cbn [fst].
  pose proof (poll_pollable fetches _ (constructor_pollable data camera)) as Hp.
  rewrite (tick_resolved _ _ Hp). cbv zeta.
  destruct (Js.is_null _); observe.
  - split; [done|]. split.
    + apply property_value_cache, lookup_cache, Hp.
    + split; [done|]. by eexists [_; _; _].
  - split; [done|]. split.
    + apply property_value_cache, Hp.
    + split; [done|]. by eexists [_].
Qed.

(** The same picture fetched twice in a row is written and notified twice. *)
Example same_picture_is_published_again :
  (lifetime example_data fixed_camera
     [Js.Resolved (jpeg [Byte.x4d]); Js.Resolved (jpeg [Byte.x4d])]).2
  = [GetSnapshot (Js.Resolved (jpeg [Byte.x4d]));
     SetCachedValue "snapshotMimeType" (Js.VStr "image/jpeg");
     NotifyPropertyChanged "snapshotMimeType" (Js.VStr "image/jpeg");
     SetCachedValue "snapshot" (Js.VStr "TQ==");
     NotifyPropertyChanged "snapshot" (Js.VStr "TQ==");
     GetSnapshot (Js.Resolved (jpeg [Byte.x4d]));
     SetCachedValue "snapshot" (Js.VStr "TQ==");
     NotifyPropertyChanged "snapshot" (Js.VStr "TQ==")].
Proof. reflexivity. Qed.

(** A later fetch with another MIME type leaves the cached one. *)
Example later_mime_type_is_ignored :
  property_value
    (lifetime example_data fixed_camera
       [Js.Rejected broken_motor; Js.Resolved (jpeg []); Js.Resolved (png [])]).1
    "snapshotMimeType"
  = Some (Js.VStr "image/jpeg").
Proof. reflexivity. Qed.

(** C9: a tick whose fetch fails logs the error and does nothing else: the
    device (so every cached value) is as before, no write happens and no
    change is notified, and the tick's chain ends resolved, so that the
    failure reaches no caller. *)
Theorem failed_fetch_changes_nothing e this :
  let run := tick (Js.Rejected e) this in
  result_of run = Normal (Js.Resolved tt) ∧
  state_of run = this ∧
  trace_of run
    = [GetSnapshot (Js.Rejected e); ConsoleError "Error fetching snapshot: " e] ∧
  count is_property_notification (trace_of run) = 0%nat ∧
  count (is_write "snapshot") (trace_of run) = 0%nat ∧
  count (is_write "snapshotMimeType") (trace_of run) = 0%nat.
Proof. done. Qed.

(** ** [performAction] *)

(** What a ['move'] does: after the action's [start] it throws when the
    input is nullish or the camera has no PTZ service, and otherwise makes
    one call and reacts to how the call settles. *)
Lemma performAction_move this a :
  Action.name a = "move" ->
  performAction this a =
  match Js.member (Action.input a) "speedX", ptz (this_camera this) with
  | inl e, _ => (Throw e, set_status pending a, [ActionStart; ActionNotify "pending"])
  | inr _, None =>
      (Throw (Js.TypeError "Cannot read properties of undefined (reading 'continuousMove')"),
       set_status pending a, [ActionStart; ActionNotify "pending"])
  | inr _, Some service =>
      let v := velocity_of (Action.input a) in
      let t := timeout_of (Action.input a) in
      match continuousMove service Js.VNull v t with
      | Js.Resolved _ as p =>
          (Normal (Js.Resolved tt), set_status completed a,
           [ActionStart; ActionNotify "pending"; ContinuousMove Js.VNull v t p;
            ActionFinish; ActionNotify "completed"])
      | Js.Rejected e as p =>
          (Normal (Js.Resolved tt), set_status "error" a,
           [ActionStart; ActionNotify "pending"; ContinuousMove Js.VNull v t p;
            ConsoleError "Failed to move camera: " e; ActionNotify "error"])
      end
  end.
Proof.
  destruct a as [n input st]. cbn [Action.name Action.input]. intros ->.
  destruct this as [? [? ? [[move halt]|] ?] ? ? ? ? ? ? ?]; cbn [this_camera ptz].
  - destruct input; try reflexivity; cbv;
      match goal with
      | |- context [move ?f ?v ?t] => destruct (move f v t) as [[]|]
      end; reflexivity.
  - by destruct input.
Qed.

Lemma performAction_stop this a :
  Action.name a = "stop" ->
  performAction this a =
  match ptz (this_camera this) with
  | None =>
      (Throw (Js.TypeError "Cannot read properties of undefined (reading 'stop')"),
       set_status pending a, [ActionStart; ActionNotify "pending"])
  | Some service =>
      match stop service with
      | Js.Resolved _ as p =>
          (Normal (Js.Resolved tt), set_status completed a,
           [ActionStart; ActionNotify "pending"; Stop p;
            ActionFinish; ActionNotify "completed"])
      | Js.Rejected e as p =>
          (Normal (Js.Resolved tt), set_status "error" a,
           [ActionStart; ActionNotify "pending"; Stop p;
            ConsoleError "Failed to stop camera: " e; ActionNotify "error"])
      end
  end.
Proof.
  destruct a as [n input st]. cbn [Action.name Action.input]. intros ->.
  destruct this as [? [? ? [[move [[]|]]|] ?] ? ? ? ? ? ? ?]; reflexivity.
Qed.

Lemma performAction_other this a :
  Action.name a ≠ "move" -> Action.name a ≠ "stop" ->
  performAction this a =
  (Normal (Js.Resolved tt), set_status "error" a, [ActionNotify "error"]).
Proof.
  intros Hmove Hstop. apply String.eqb_neq in Hmove, Hstop.
  unfold performAction. rewrite bind_run. unfold gets. cbv beta iota zeta.
  by rewrite Hmove, Hstop.
Qed.

(** C4: for an action whose name is neither 'move' nor 'stop',
    [performAction] sets the status to 'error', notifies the action once
    and does nothing else: no camera call is made (and none of the host's
    [start] and [finish]). *)
Theorem unknown_action_is_an_error this a :
  Action.name a ≠ "move" -> Action.name a ≠ "stop" ->
  let run := performAction this a in
  result_of run = Normal (Js.Resolved tt) ∧
  Action.status (state_of run) = "error" ∧
  trace_of run = [ActionNotify "error"] ∧
  count is_action_notification (trace_of run) = 1%nat ∧
  count is_camera_call (trace_of run) = 0%nat.
Proof. intros Hmove Hstop. cbv zeta. by rewrite performAction_other. Qed.

Lemma unknown_action_is_an_error_witness :
  Action.name example_zoom ≠ "move" ∧ Action.name example_zoom ≠ "stop" ∧
  trace_of (performAction fixed_device example_zoom) = [ActionNotify "error"].
Proof.
  assert (Action.name example_zoom ≠ "move") as Hmove by done.
  assert (Action.name example_zoom ≠ "stop") as Hstop by done.
  split; [exact Hmove|]. split; [exact Hstop|].
  exact (proj1 (proj2 (proj2
    (unknown_action_is_an_error fixed_device example_zoom Hmove Hstop)))).
Defined.

(** C5: when the [continuousMove] call of a 'move' action succeeds (the
    camera has the PTZ service, the input is an object and the service
    resolves the call made with the input's speeds and timeout),
    [performAction] calls the action's [start], which makes it pending,
    then the camera, then the action's [finish], which makes it completed;
    each of the two tells the host the new status.  No notification has the
    status 'error' and nothing is logged. *)
Theorem move_success_starts_then_finishes this a service :
  Action.name a = "move" ->
  ptz (this_camera this) = Some service ->
  nullish (Action.input a) = false ->
  continuousMove service Js.VNull (velocity_of (Action.input a))
    (timeout_of (Action.input a)) = Js.Resolved tt ->
  let run := performAction this a in
  result_of run = Normal (Js.Resolved tt) ∧
  trace_of run
    = [ActionStart; ActionNotify "pending";
       ContinuousMove Js.VNull (velocity_of (Action.input a))
         (timeout_of (Action.input a)) (Js.Resolved tt);
       ActionFinish; ActionNotify "completed"] ∧
  Action.status (state_of run) = "completed" ∧
  count is_error_notification (trace_of run) = 0%nat ∧
  count is_console_error (trace_of run) = 0%nat.
Proof.
  intros Hname Hptz Hinput Hcall. cbv zeta.
  rewrite (performAction_move _ _ Hname), Hptz.
  destruct (Action.input a) eqn:Hi; try discriminate; cbn [Js.member]; cbv zeta;
    rewrite Hcall; observe; by destruct a.
Qed.

Lemma move_success_starts_then_finishes_witness :
  Action.name example_move = "move" ∧
  ptz (this_camera (ptz_device (Js.Resolved tt))) = Some (ptz_settling (Js.Resolved tt)) ∧
  nullish (Action.input example_move) = false ∧
  continuousMove (ptz_settling (Js.Resolved tt)) Js.VNull
    (velocity_of (Action.input example_move)) (timeout_of (Action.input example_move))
  = Js.Resolved tt ∧
  trace_of (performAction (ptz_device (Js.Resolved tt)) example_move)
  = [ActionStart; ActionNotify "pending";
     ContinuousMove Js.VNull
       {| x := Js.VNum 0.5%float; y := Js.VNum (-0.5)%float; z := Js.VNum 0%float |}
       (Js.VNum 3%float) (Js.Resolved tt);
     ActionFinish; ActionNotify "completed"].
Proof.
  split; [reflexivity|]. split; [reflexivity|]. split; [reflexivity|].
  split; [reflexivity|].
  exact (proj1 (proj2
    (move_success_starts_then_finishes (ptz_device (Js.Resolved tt)) example_move
       (ptz_settling (Js.Resolved tt)) eq_refl eq_refl eq_refl eq_refl))).
Defined.

(** C6: when the PTZ call of a 'move' or 'stop' action rejects (the camera
    has the PTZ service and the service rejects the [continuousMove] made
    with the input's speeds and timeout, or the [stop]), [performAction]
    logs the error, sets the status to 'error' and notifies the action with
    that status, once; it has made that one camera call and makes no other,
    never calls [finish], and the promise it returns is resolved: the
    failure stays inside. *)
Theorem ptz_failure_is_reported_once this a service e :
  ptz (this_camera this) = Some service ->
  (Action.name a = "move" ∧ nullish (Action.input a) = false ∧
   continuousMove service Js.VNull (velocity_of (Action.input a))
     (timeout_of (Action.input a)) = Js.Rejected e)
  ∨ (Action.name a = "stop" ∧ stop service = Js.Rejected e) ->
  let run := performAction this a in
  result_of run = Normal (Js.Resolved tt) ∧
  Action.status (state_of run) = "error" ∧
  trace_of run
    = (ActionStart :: ActionNotify "pending" ::
       (if String.eqb (Action.name a) "move"
        then [ContinuousMove Js.VNull (velocity_of (Action.input a))
                (timeout_of (Action.input a)) (Js.Rejected e);
              ConsoleError "Failed to move camera: " e]
        else [Stop (Js.Rejected e); ConsoleError "Failed to stop camera: " e]) ++
       [ActionNotify "error"])%list ∧
  count is_error_notification (trace_of run) = 1%nat ∧
  count is_console_error (trace_of run) = 1%nat ∧
  count is_camera_call (trace_of run) = 1%nat ∧
  count is_finish (trace_of run) = 0%nat.
Proof.
  intros Hptz [(Hname & Hinput & Hcall)|(Hname & Hcall)]; cbv zeta.
  - rewrite (performAction_move _ _ Hname), Hptz, Hname.
    destruct (Action.input a) eqn:Hi; try discriminate; cbn [Js.member]; cbv zeta;
      rewrite Hcall; observe; by destruct a.
  - rewrite (performAction_stop _ _ Hname), Hptz, Hcall, Hname. observe.
    by destruct a.
Qed.

Lemma ptz_failure_is_reported_once_witness :
  (ptz (this_camera (ptz_device (Js.Rejected broken_motor)))
   = Some (ptz_settling (Js.Rejected broken_motor)) ∧
   Action.name example_move = "move" ∧ nullish (Action.input example_move) = false ∧
   continuousMove (ptz_settling (Js.Rejected broken_motor)) Js.VNull
     (velocity_of (Action.input example_move)) (timeout_of (Action.input example_move))
   = Js.Rejected broken_motor ∧
   trace_of (performAction (ptz_device (Js.Rejected broken_motor)) example_move)
   = [ActionStart; ActionNotify "pending";
      ContinuousMove Js.VNull
        {| x := Js.VNum 0.5%float; y := Js.VNum (-0.5)%float; z := Js.VNum 0%float |}
        (Js.VNum 3%float) (Js.Rejected broken_motor);
      ConsoleError "Failed to move camera: " broken_motor;
      ActionNotify "error"]) ∧
  (Action.name example_stop = "stop" ∧
   stop (ptz_settling (Js.Rejected broken_motor)) = Js.Rejected broken_motor ∧
   trace_of (performAction (ptz_device (Js.Rejected broken_motor)) example_stop)
   = [ActionStart; ActionNotify "pending"; Stop (Js.Rejected broken_motor);
      ConsoleError "Failed to stop camera: " broken_motor;
      ActionNotify "error"]).
Proof.
  split.
  - split; [reflexivity|]. split; [reflexivity|]. split; [reflexivity|].
    split; [reflexivity|].
    exact (proj1 (proj2 (proj2
      (ptz_failure_is_reported_once (ptz_device (Js.Rejected broken_motor)) example_move
         (ptz_settling (Js.Rejected broken_motor)) broken_motor eq_refl
         (or_introl (conj eq_refl (conj eq_refl eq_refl))))))).
  - split; [reflexivity|]. split; [reflexivity|].
    exact (proj1 (proj2 (proj2
      (ptz_failure_is_reported_once (ptz_device (Js.Rejected broken_motor)) example_stop
         (ptz_settling (Js.Rejected broken_motor)) broken_motor eq_refl
         (or_intror (conj eq_refl eq_refl)))))).
Defined.

Example stop_failure_is_reported_once :
  performAction (ptz_device (Js.Rejected broken_motor)) example_stop
  = (Normal (Js.Resolved tt), set_status "error" example_stop,
     [ActionStart; ActionNotify "pending"; Stop (Js.Rejected broken_motor);
      ConsoleError "Failed to stop camera: " broken_motor; ActionNotify "error"]).
Proof. reflexivity. Qed.

(** C8, as the code has it: the limits on the input of 'move' are declared,
    not checked.  On a camera with a PTZ service the constructor registers
    'move' with a schema that requires speedX, speedY and speedZ, gives each
    the minimum -1 and the maximum 1, and gives timeout the minimum 0;
    [performAction] hands the speeds of any input that is an object or a
    primitive to [continuousMove] as they are, with the timeout when it is
    a number and [null] otherwise. *)
Theorem move_limits_are_declared_not_checked data camera service a :
  ptz camera = Some service ->
  Action.name a = "move" ->
  nullish (Action.input a) = false ->
  let this := (constructor data camera).1 in
  actions this !! "move" = Some move_metadata ∧
  Schema.input_schema move_metadata
    = Some {| Schema.input_type := "object";
              Schema.required := ["speedX"; "speedY"; "speedZ"];
              Schema.properties :=
                [("speedX", speed_schema); ("speedY", speed_schema);
                 ("speedZ", speed_schema); ("timeout", timeout_schema)] |} ∧
  (Schema.minimum speed_schema, Schema.maximum speed_schema)
    = (Some (-1)%float, Some 1%float) ∧
  (Schema.minimum timeout_schema, Schema.maximum timeout_schema)
    = (Some 0%float, None) ∧
  ∃ outcome,
    In (ContinuousMove Js.VNull (velocity_of (Action.input a))
          (timeout_of (Action.input a)) outcome)
       (trace_of (performAction this a)).
Proof.
  intros Hptz Hname Hinput. cbv zeta. split; [|do 3 (split; [done|])].
  - rewrite constructor_actions, Hptz. done.
  - rewrite (performAction_move _ _ Hname), constructor_camera, Hptz.
    destruct (Action.input a); try discriminate; cbn [Js.member]; cbv zeta;
      (destruct (continuousMove _ _ _ _) as [[]|e]; observe; eexists; cbn; eauto).
Qed.

Lemma move_limits_are_declared_not_checked_witness :
  ptz (ptz_camera (Js.Resolved tt)) = Some (ptz_settling (Js.Resolved tt)) ∧
  Action.name wild_move = "move" ∧
  nullish (Action.input wild_move) = false ∧
  ∃ outcome,
    In (ContinuousMove Js.VNull
          {| x := Js.VNum 2%float; y := Js.VNum (-1.5)%float; z := Js.VNum 0%float |}
          (Js.VNum (-1)%float) outcome)
       (trace_of (performAction (ptz_device (Js.Resolved tt)) wild_move)).
Proof.
  split; [reflexivity|]. split; [reflexivity|]. split; [reflexivity|].
  exact (proj2 (proj2 (proj2 (proj2
    (move_limits_are_declared_not_checked example_data (ptz_camera (Js.Resolved tt))
       (ptz_settling (Js.Resolved tt)) wild_move eq_refl eq_refl eq_refl))))).
Defined.

(** C8 as stated fails: a 'move' with speedX 2, speedY -1.5 and timeout -1,
    all outside what the schema allows, reaches [continuousMove] unchanged
    and completes. *)
Lemma move_out_of_range_reaches_the_camera :
  speed_in_range (Js.VNum 2%float) = false ∧
  speed_in_range (Js.VNum (-1.5)%float) = false ∧
  timeout_in_range (Js.VNum (-1)%float) = false ∧
  performAction (ptz_device (Js.Resolved tt)) wild_move
  = (Normal (Js.Resolved tt), set_status completed wild_move,
     [ActionStart; ActionNotify "pending";
      ContinuousMove Js.VNull
        {| x := Js.VNum 2%float; y := Js.VNum (-1.5)%float; z := Js.VNum 0%float |}
        (Js.VNum (-1)%float) (Js.Resolved tt);
      ActionFinish; ActionNotify "completed"]).
Proof. repeat split. Qed.

(** C10, as the code has it: [performAction] returns a resolved promise,
    and does not throw, for an action with another name than 'move' and
    'stop' on any device, and for 'move' and 'stop' on a device whose camera
    has the PTZ service, provided the input of a 'move' is not [undefined]
    or [null]; how the PTZ call settles makes no difference. *)
Theorem performAction_resolves this a :
  (Action.name a = "move" ∨ Action.name a = "stop" -> is_Some (ptz (this_camera this))) ->
  (Action.name a = "move" -> nullish (Action.input a) = false) ->
  result_of (performAction this a) = Normal (Js.Resolved tt).
Proof.
  intros Hptz Hinput.
  destruct (String.eqb_spec (Action.name a) "move") as [Hmove|Hmove].
  - rewrite (performAction_move _ _ Hmove).
    destruct Hptz as [service ->]; [by left|]. specialize (Hinput Hmove).
    destruct (Action.input a); try discriminate; cbn [Js.member]; cbv zeta;
      by destruct (continuousMove _ _ _ _) as [[]|e].
  - destruct (String.eqb_spec (Action.name a) "stop") as [Hstop|Hstop].
    + rewrite (performAction_stop _ _ Hstop).
      destruct Hptz as [service ->]; [by right|].
      by destruct (stop _) as [[]|e].
    + by rewrite performAction_other.
Qed.

Lemma performAction_resolves_witness :
  (Action.name example_move = "move" ∨ Action.name example_move = "stop" ->
   is_Some (ptz (this_camera (ptz_device (Js.Rejected broken_motor))))) ∧
  (Action.name example_move = "move" -> nullish (Action.input example_move) = false) ∧
  result_of (performAction (ptz_device (Js.Rejected broken_motor)) example_move)
  = Normal (Js.Resolved tt).
Proof.
  assert (is_Some (ptz (this_camera (ptz_device (Js.Rejected broken_motor)))))
    as Hptz by (eexists; reflexivity).
  split; [intros _; exact Hptz|]. split; [intros _; reflexivity|].
  exact (performAction_resolves (ptz_device (Js.Rejected broken_motor)) example_move
           (fun _ => Hptz) (fun _ => eq_refl)).
Defined.

(** C10 as stated fails: [performAction] throws a [TypeError], after the
    action's [start], for a 'move' or a 'stop' on a device whose camera has
    no PTZ service, and for a 'move' that carries no input. *)
Lemma performAction_throws_without_ptz_or_input :
  performAction fixed_device example_move
  = (Throw (Js.TypeError "Cannot read properties of undefined (reading 'continuousMove')"),
     set_status pending example_move, [ActionStart; ActionNotify "pending"]) ∧
  performAction fixed_device example_stop
  = (Throw (Js.TypeError "Cannot read properties of undefined (reading 'stop')"),
     set_status pending example_stop, [ActionStart; ActionNotify "pending"]) ∧
  performAction (ptz_device (Js.Resolved tt)) bare_move
  = (Throw (Js.TypeError "Cannot read properties of undefined (reading 'speedX')"),
     set_status pending bare_move, [ActionStart; ActionNotify "pending"]).
Proof. repeat split. Qed.

(** * Further properties of the constructor, the poller and [performAction] *)

Lemma tick_unfold fetch this :
  tick fetch this =
  match fetch with
  | Js.Rejected e =>
      (Normal (Js.Resolved tt), this,
       [GetSnapshot fetch; ConsoleError "Error fetching snapshot: " e])
  | Js.Resolved res =>
      match on_snapshot {| mimeType := res_mimeType res; buffer := image res |} this with
      | (Normal _, this', t) => (Normal (Js.Resolved tt), this', GetSnapshot fetch :: t)
      | (Throw e, this', t) =>
          (Normal (Js.Resolved tt), this',
           GetSnapshot fetch :: (t ++ [ConsoleError "Error fetching snapshot: " e])%list)
      end
  end.
Proof.
  destruct fetch as [res|e]; [|reflexivity].
  unfold tick. run_with (snapshot_resolved (S:=OnvifDevice) res).
  rewrite bind_run. unfold then_.
  destruct (on_snapshot _ this) as [[[[]|e] this'] t]; simpl; by rewrite ?app_nil_r.
Qed.

Lemma the_property_None k reading this :
  properties this !! k = None ->
  the_property k reading this =
  (Throw (Js.TypeError ("Cannot read properties of undefined (reading '" ++ reading ++ "')")),
   this, []).
Proof.
  intros H. unfold the_property, properties_get.
  rewrite bind_run. unfold gets. by rewrite H.
Qed.

(** The reaction on a device without the MIME-type property. *)
Lemma on_snapshot_without_mime s this :
  properties this !! "snapshotMimeType" = None ->
  on_snapshot s this =
  (Throw (Js.TypeError "Cannot read properties of undefined (reading 'value')"), this, []).
Proof.
  intros Hm. unfold on_snapshot. rewrite bind_run.
  by rewrite (the_property_None _ "value" _ Hm).
Qed.

(** The reaction on a device without the snapshot property. *)
Lemma on_snapshot_without_snapshot s this pm :
  properties this !! "snapshotMimeType" = Some pm ->
  properties this !! "snapshot" = None ->
  on_snapshot s this =
  let e := Js.TypeError "Cannot read properties of undefined (reading 'setCachedValue')" in
  let mime := Js.VStr (mimeType s) in
  if Js.is_null (Property.value pm) then
    (Throw e, cache "snapshotMimeType" mime this,
     [SetCachedValue "snapshotMimeType" mime; NotifyPropertyChanged "snapshotMimeType" mime])
  else (Throw e, this, []).
Proof.
  intros Hm Hs. unfold on_snapshot.
  run_with (the_property_Some _ "value" _ _ Hm).
  destruct (Js.is_null (Property.value pm)).
  - rewrite bind_run. do 2 run.
    assert (properties (cache "snapshotMimeType" (Js.VStr (mimeType s)) this) !! "snapshot"
            = None) as Hs'.
    { apply eq_None_not_Some. rewrite lookup_cache. by rewrite Hs; intros []. }
    run_with (the_property_None _ "setCachedValue" _ Hs').
    rewrite property_value_cache by (by rewrite Hm). done.
  - rewrite bind_run. cbv beta iota zeta. unfold mret at 1, M_ret at 1.
    cbv beta iota zeta.
    by run_with (the_property_None _ "setCachedValue" _ Hs).
Qed.

Lemma on_snapshot_publishes s this :
  published s this (state_of (on_snapshot s this)) ∧
  forallb is_publication (trace_of (on_snapshot s this)) = true ∧
  count is_property_notification (trace_of (on_snapshot s this))
  = count is_any_write (trace_of (on_snapshot s this)).
Proof.
  destruct (properties this !! "snapshotMimeType") as [pm|] eqn:Hm.
  2:{ rewrite (on_snapshot_without_mime _ _ Hm). observe. by split; [constructor|]. }
  destruct (properties this !! "snapshot") as [ps|] eqn:Hs.
  - assert (pollable this) as Hp by (split; eauto).
    rewrite (on_snapshot_run _ _ Hp). cbv zeta.
    destruct (Js.is_null _); observe; by split; [constructor|].
  - rewrite (on_snapshot_without_snapshot _ _ _ Hm Hs). cbv zeta.
    destruct (Js.is_null _); observe; by split; [constructor|].
Qed.

Lemma published_registered s this this' k :
  published s this this' ->
  is_Some (properties this' !! k) <-> is_Some (properties this !! k).
Proof. intros []; by rewrite ?lookup_cache. Qed.

Lemma published_actions s this this' :
  published s this this' -> actions this' = actions this ∧ this_camera this' = this_camera this.
Proof. by intros []. Qed.

Lemma count_cons p ev t : count p (ev :: t) = ((if p ev then 1 else 0) + count p t)%nat.
Proof. unfold count. simpl. by destruct (p ev). Qed.

Lemma count_none p q t :
  (∀ ev, q ev = true -> p ev = false) -> forallb q t = true -> count p t = 0%nat.
Proof.
  intros Hpq. induction t as [|ev t IH]; [done|]. simpl.
  intros [Hq Ht]%andb_prop. rewrite count_cons, (Hpq _ Hq). by apply IH.
Qed.

Lemma publication_is_no_call ev : is_publication ev = true -> is_camera_call ev = false.
Proof. by destruct ev. Qed.

Lemma publication_is_no_fetch ev : is_publication ev = true -> is_snapshot_fetch ev = false.
Proof. by destruct ev. Qed.

Lemma publication_is_no_ptz_call ev : is_publication ev = true -> is_ptz_call ev = false.
Proof. by destruct ev. Qed.

Lemma publication_is_no_action_notification ev :
  is_publication ev = true -> is_action_notification ev = false.
Proof. by destruct ev. Qed.

(** A tick on any device: the promise of its chain is resolved, the device
    is one the reaction can leave, and the trace is the fetch, publications
    and at most one logged error. *)
Lemma tick_shape fetch this :
  ∃ this' t log,
    tick fetch this = (Normal (Js.Resolved tt), this', GetSnapshot fetch :: (t ++ log)%list) ∧
    (this' = this ∨ ∃ s, published s this this') ∧
    forallb is_publication t = true ∧
    forallb is_console_error log = true.
Proof.
  rewrite tick_unfold. destruct fetch as [res|e].
  - pose proof (on_snapshot_publishes
                  {| mimeType := res_mimeType res; buffer := image res |} this)
      as (Hstate & Htrace & _).
    destruct (on_snapshot _ this) as [[[[]|e] this'] t]; rewrite state_of_run in Hstate;
      rewrite trace_of_run in Htrace.
    + exists this', t, []. rewrite app_nil_r. eauto 10.
    + exists this', t, [ConsoleError "Error fetching snapshot: " e]. eauto 10.
  - exists this, [], [ConsoleError "Error fetching snapshot: " e]. eauto 10.
Qed.

Lemma tick_result_any fetch this : result_of (tick fetch this) = Normal (Js.Resolved tt).
Proof. destruct (tick_shape fetch this) as (? & ? & ? & -> & _). done. Qed.

Lemma poll_step fetch rest this :
  poll (fetch :: rest) this =
  (result_of (poll rest (state_of (tick fetch this))),
   state_of (poll rest (state_of (tick fetch this))),
   (trace_of (tick fetch this) ++ trace_of (poll rest (state_of (tick fetch this))))%list).
Proof.
  pose proof (tick_result_any fetch this) as Hr.
  cbn [poll]. rewrite bind_run.
  destruct (tick fetch this) as [[r this'] t]. rewrite result_of_run in Hr. subst r.
  observe. by destruct (poll rest this') as [[? ?] ?].
Qed.

Lemma poll_result_any fetches this : result_of (poll fetches this) = Normal tt.
Proof.
  revert this. induction fetches as [|fetch rest IH]; intros this; [done|].
  rewrite poll_step. observe. apply IH.
Qed.

Lemma tick_frame fetch this :
  actions (state_of (tick fetch this)) = actions this ∧
  this_camera (state_of (tick fetch this)) = this_camera this ∧
  ∀ k, is_Some (properties (state_of (tick fetch this)) !! k)
       <-> is_Some (properties this !! k).
Proof.
  destruct (tick_shape fetch this) as (this' & t & log & -> & [->|[s Hs]] & _); observe.
  - done.
  - destruct (published_actions _ _ _ Hs) as [-> ->].
    split; [done|]. split; [done|]. intros k. by eapply published_registered.
Qed.

Lemma poll_frame fetches this :
  actions (state_of (poll fetches this)) = actions this ∧
  this_camera (state_of (poll fetches this)) = this_camera this ∧
  ∀ k, is_Some (properties (state_of (poll fetches this)) !! k)
       <-> is_Some (properties this !! k).
Proof.
  revert this. induction fetches as [|fetch rest IH]; intros this; [done|].
  rewrite poll_step. observe.
  destruct (IH (state_of (tick fetch this))) as (-> & -> & Hk).
  destruct (tick_frame fetch this) as (-> & -> & Hk').
  split; [done|]. split; [done|]. intros k. by rewrite Hk.
Qed.

Lemma tick_calls fetch this :
  count is_snapshot_fetch (trace_of (tick fetch this)) = 1%nat ∧
  count is_ptz_call (trace_of (tick fetch this)) = 0%nat ∧
  count is_action_notification (trace_of (tick fetch this)) = 0%nat.
Proof.
  destruct (tick_shape fetch this) as (this' & t & log & -> & _ & Ht & Hlog). observe.
  rewrite !count_cons, !count_app. cbn [is_snapshot_fetch is_ptz_call is_action_notification].
  rewrite (count_none is_snapshot_fetch _ t publication_is_no_fetch Ht).
  rewrite (count_none is_ptz_call _ t publication_is_no_ptz_call Ht).
  rewrite (count_none is_action_notification _ t publication_is_no_action_notification Ht).
  rewrite (count_none is_snapshot_fetch is_console_error log) by (done || by intros []).
  rewrite (count_none is_ptz_call is_console_error log) by (done || by intros []).
  rewrite (count_none is_action_notification is_console_error log) by (done || by intros []).
  done.
Qed.

(** X9: on any device, also one that lacks a snapshot property, a tick never
    throws and the promise its chain ends in is resolved, and the poller
    runs through any sequence of ticks. *)
Theorem poller_never_fails fetch fetches this :
  result_of (tick fetch this) = Normal (Js.Resolved tt) ∧
  result_of (poll fetches this) = Normal tt.
Proof. split; [apply tick_result_any | apply poll_result_any]. Qed.

(** X10: on any device the poller asks the camera for one snapshot per tick
    and never calls the PTZ service or notifies an action. *)
Theorem poller_fetches_once_per_tick fetches this :
  count is_snapshot_fetch (trace_of (poll fetches this)) = length fetches ∧
  count is_ptz_call (trace_of (poll fetches this)) = 0%nat ∧
  count is_action_notification (trace_of (poll fetches this)) = 0%nat.
Proof.
  revert this. induction fetches as [|fetch rest IH]; intros this; [done|].
  rewrite poll_step. observe. rewrite !count_app.
  destruct (tick_calls fetch this) as (-> & -> & ->).
  destruct (IH (state_of (tick fetch this))) as (-> & -> & ->). done.
Qed.

Lemma cache_metadata k' v this k :
  metadata <$> properties (cache k' v this) !! k = metadata <$> properties this !! k.
Proof.
  unfold cache, set_properties; simpl. destruct (decide (k' = k)) as [->|Hne].
  - rewrite lookup_alter_eq. by destruct (properties this !! k).
  - by rewrite lookup_alter_ne.
Qed.

Lemma cache_other k' v this k :
  k' ≠ k -> properties (cache k' v this) !! k = properties this !! k.
Proof. intros Hne. unfold cache, set_properties; simpl. by rewrite lookup_alter_ne. Qed.

Lemma published_metadata s this this' k :
  published s this this' ->
  metadata <$> properties this' !! k = metadata <$> properties this !! k.
Proof. intros []; by rewrite ?cache_metadata. Qed.

Lemma published_other s this this' k :
  published s this this' ->
  k ≠ "snapshotMimeType" -> k ≠ "snapshot" ->
  properties this' !! k = properties this !! k.
Proof. intros [] Hm Hs; by rewrite ?cache_other. Qed.

Lemma tick_metadata fetch this k :
  metadata <$> properties (state_of (tick fetch this)) !! k
  = metadata <$> properties this !! k.
Proof.
  destruct (tick_shape fetch this) as (this' & t & log & -> & [->|[s Hs]] & _); observe.
  - done.
  - by eapply published_metadata.
Qed.

Lemma tick_other fetch this k :
  k ≠ "snapshotMimeType" -> k ≠ "snapshot" ->
  properties (state_of (tick fetch this)) !! k = properties this !! k.
Proof.
  destruct (tick_shape fetch this) as (this' & t & log & -> & [->|[s Hs]] & _); observe.
  - done.
  - by eapply published_other.
Qed.

Lemma poll_metadata fetches this k :
  metadata <$> properties (state_of (poll fetches this)) !! k
  = metadata <$> properties this !! k.
Proof.
  revert this. induction fetches as [|fetch rest IH]; intros this; [done|].
  rewrite poll_step. observe. by rewrite IH, tick_metadata.
Qed.

Lemma poll_other fetches this k :
  k ≠ "snapshotMimeType" -> k ≠ "snapshot" ->
  properties (state_of (poll fetches this)) !! k = properties this !! k.
Proof.
  intros Hm Hs. revert this. induction fetches as [|fetch rest IH]; intros this; [done|].
  rewrite poll_step. observe. by rewrite IH, tick_other.
Qed.

Lemma constructor_properties data camera :
  properties (constructor data camera).1 = registry (property_table (getDefaultProfile camera)).
Proof.
  destruct camera as [info [uri video audio] service has_events].
  by destruct audio, service, has_events.
Qed.

Lemma foldl_well_registered ps (m : gmap string Property.t) :
  map_Forall well_registered m ->
  Forall (fun p => Property.readOnly (Property.descr p) = true) ps ->
  map_Forall well_registered (foldl (fun m p => <[Property.name p := p]> m) m ps).
Proof.
  revert m. induction ps as [|p ps IH]; intros m Hm Hps; [done|].
  inversion Hps; subst. simpl. apply IH; [|done].
  by apply map_Forall_insert_2.
Qed.

Lemma constructor_well_registered data camera :
  map_Forall well_registered (properties (constructor data camera).1).
Proof.
  rewrite constructor_properties. apply foldl_well_registered.
  - apply map_Forall_empty.
  - unfold property_table. apply Forall_app. split; [by repeat constructor|].
    destruct (AudioEncoderConfiguration _); by repeat constructor.
Qed.

Lemma constructor_dom data camera :
  dom (properties (constructor data camera).1) =
  video_property_names ∪
  (if AudioEncoderConfiguration (getDefaultProfile camera) is Some _
   then audio_property_names else ∅).
Proof.
  destruct camera as [info [uri video audio] service has_events].
  by destruct audio, service, has_events.
Qed.

Lemma poll_dom fetches this :
  dom (properties (state_of (poll fetches this))) = dom (properties this).
Proof.
  apply set_eq. intros k. rewrite !elem_of_dom. apply poll_frame.
Qed.

Lemma poll_well_registered fetches this :
  map_Forall well_registered (properties this) ->
  map_Forall well_registered (properties (state_of (poll fetches this))).
Proof.
  intros H k p Hk. pose proof (poll_metadata fetches this k) as Hmeta.
  rewrite Hk in Hmeta. destruct (properties this !! k) as [p0|] eqn:Hk0; [|done].
  injection Hmeta as Hname Hdescr. specialize (H k p0 Hk0) as [H1 H2].
  split; congruence.
Qed.

(** X3: over the whole lifetime the registered property names are exactly
    the eight video and snapshot names, plus the three audio names when the
    profile has the audio block: the poller registers and removes nothing. *)
Theorem registered_properties_are_fixed data camera fetches :
  dom (properties (lifetime data camera fetches).1) =
  video_property_names ∪
  (if AudioEncoderConfiguration (getDefaultProfile camera) is Some _
   then audio_property_names else ∅).
Proof. rewrite lifetime_run. cbn [fst]. rewrite poll_dom. apply constructor_dom. Qed.

(** X4: over the whole lifetime every property is registered under its own
    name and is read-only. *)
Theorem properties_stay_well_registered data camera fetches :
  map_Forall well_registered (properties (lifetime data camera fetches).1).
Proof.
  rewrite lifetime_run. cbn [fst].
  apply poll_well_registered, constructor_well_registered.
Qed.

(** X5: a property other than snapshot and snapshotMimeType is, after any
    number of ticks, the object the constructor registered: the poller
    never touches it. *)
Theorem static_properties_never_change data camera fetches k :
  k ≠ "snapshotMimeType" -> k ≠ "snapshot" ->
  properties (lifetime data camera fetches).1 !! k
  = properties (constructor data camera).1 !! k.
Proof.
  intros Hm Hs. rewrite lifetime_run. cbn [fst]. by rewrite poll_other.
Qed.

Lemma tick_snapshot_value res this :
  pollable this ->
  property_value (state_of (tick (Js.Resolved res) this)) "snapshot"
  = Some (Js.VStr (Js.base64 (image res))).
Proof.
  intros Hp. rewrite (tick_resolved _ _ Hp). cbv zeta.
  destruct (Js.is_null _); observe.
  - apply property_value_cache, lookup_cache, Hp.
  - apply property_value_cache, Hp.
Qed.

Lemma poll_snapshot_value fetches this :
  pollable this ->
  property_value (state_of (poll fetches this)) "snapshot"
  = match last_resolved fetches with
    | Some res => Some (Js.VStr (Js.base64 (image res)))
    | None => property_value this "snapshot"
    end.
Proof.
  revert this. induction fetches as [|fetch rest IH]; intros this Hp; [done|].
  rewrite poll_step. observe. rewrite IH by (by apply tick_pollable).
  cbn [last_resolved]. destruct (last_resolved rest); [done|].
  destruct fetch as [res|e]; [by apply tick_snapshot_value|done].
Qed.

Lemma tick_publications fetch this :
  pollable this ->
  count (is_write "snapshot") (trace_of (tick fetch this))
  = (if is_resolved fetch then 1 else 0)%nat ∧
  count is_property_notification (trace_of (tick fetch this))
  = (count (is_write "snapshot") (trace_of (tick fetch this)) +
     count (is_write "snapshotMimeType") (trace_of (tick fetch this)))%nat.
Proof.
  intros Hp. destruct fetch as [res|e]; [|done].
  rewrite (tick_resolved _ _ Hp). cbv zeta. by destruct (Js.is_null _).
Qed.

Lemma poll_publications fetches this :
  pollable this ->
  count (is_write "snapshot") (trace_of (poll fetches this)) = successes fetches ∧
  count is_property_notification (trace_of (poll fetches this))
  = (count (is_write "snapshot") (trace_of (poll fetches this)) +
     count (is_write "snapshotMimeType") (trace_of (poll fetches this)))%nat.
Proof.
  revert this. induction fetches as [|fetch rest IH]; intros this Hp; [done|].
  rewrite poll_step. observe. rewrite !count_app.
  destruct (tick_publications fetch this Hp) as [Hw Hn].
  destruct (IH (state_of (tick fetch this))) as [Hw' Hn']; [by apply tick_pollable|].
  rewrite Hn, Hn', Hw, Hw'. split; [|lia].
  unfold successes. simpl. by destruct fetch.
Qed.

Lemma first_last_resolved {A} (fetches : list (Js.promise A)) :
  is_Some (first_resolved fetches) <-> is_Some (last_resolved fetches).
Proof.
  induction fetches as [|[a|e] rest IH]; simpl.
  - done.
  - destruct (last_resolved rest); split; eauto.
  - rewrite IH. by destruct (last_resolved rest).
Qed.

Lemma cache_cache k v this : cache k v (cache k v this) = cache k v this.
Proof.
  unfold cache, set_properties; simpl. f_equal.
  rewrite alter_alter_eq. by apply alter_ext.
Qed.

(** X11: after any lifetime the snapshot property holds the base64 text of
    the picture of the last fetch that succeeded ([null] while none has). *)
Theorem snapshot_is_the_last_picture data camera fetches :
  property_value (lifetime data camera fetches).1 "snapshot"
  = Some (from_option (fun res => Js.VStr (Js.base64 (image res))) Js.VNull
            (last_resolved fetches)).
Proof.
  rewrite lifetime_run. cbn [fst].
  rewrite poll_snapshot_value by apply constructor_pollable.
  destruct (last_resolved fetches); [done|]. apply constructor_snapshot_properties.
Qed.

(** X12: over a lifetime the snapshot property is written once per fetch
    that succeeded, and the number of change notifications is that number
    plus one, for the MIME type, as soon as one fetch has succeeded. *)
Theorem every_success_is_published_once data camera fetches :
  count (is_write "snapshot") (lifetime data camera fetches).2 = successes fetches ∧
  count is_property_notification (lifetime data camera fetches).2
  = (successes fetches + if first_resolved fetches is Some _ then 1 else 0)%nat.
Proof.
  destruct (lifetime_mime data camera fetches) as [_ Hm].
  rewrite lifetime_run in *. cbn [fst snd] in *.
  destruct (poll_publications fetches _ (constructor_pollable data camera)) as [Hw Hn].
  by rewrite Hn, Hw, Hm.
Qed.

(** X13: after any lifetime snapshotMimeType is [null] exactly while no
    fetch has succeeded, and snapshot is [null] then too: a published
    snapshot never stands next to a MIME type that is still [null]. *)
Theorem snapshot_and_mime_type_come_together data camera fetches :
  let this := (lifetime data camera fetches).1 in
  (successes fetches = 0%nat ∧
   property_value this "snapshotMimeType" = Some Js.VNull ∧
   property_value this "snapshot" = Some Js.VNull) ∨
  ((0 < successes fetches)%nat ∧
   Js.is_null (default Js.VUndefined (property_value this "snapshotMimeType")) = false).
Proof.
  cbv zeta. rewrite (proj1 (lifetime_mime data camera fetches)).
  rewrite lifetime_run. cbn [fst].
  rewrite poll_snapshot_value by apply constructor_pollable.
  pose proof (first_last_resolved fetches) as Hfl.
  assert (first_resolved fetches = None -> successes fetches = 0%nat) as Hnone.
  { clear. induction fetches as [|[a|e] rest IH]; [done|done|]. intros H. by apply IH. }
  assert (is_Some (first_resolved fetches) -> (0 < successes fetches)%nat) as Hsome.
  { clear. unfold successes.
    induction fetches as [|[a|e] rest IH]; simpl; [by intros []|lia|done]. }
  destruct (first_resolved fetches) as [first|] eqn:Hfirst.
  - right. split; [apply Hsome; eauto|done].
  - destruct (last_resolved fetches) as [last|] eqn:Hlast.
    { destruct (proj2 Hfl) as [? ?]; [eauto|done]. }
    left. split; [by apply Hnone|]. split; [done|].
    apply constructor_snapshot_properties.
Qed.

(** X14: fetching the same response twice in a row leaves the device as the
    first of the two ticks left it. *)
Theorem republishing_is_idempotent data camera fetches res :
  let this := (lifetime data camera fetches).1 in
  state_of (tick (Js.Resolved res) (state_of (tick (Js.Resolved res) this)))
  = state_of (tick (Js.Resolved res) this).
Proof.
  cbv zeta. rewrite lifetime_run. cbn [fst].
  pose proof (poll_pollable fetches _ (constructor_pollable data camera)) as Hp.
  set (this := state_of (poll fetches (constructor data camera).1)) in *.
  pose proof (tick_pollable (Js.Resolved res) this Hp) as Hp'.
  assert (Js.is_null (default Js.VUndefined
            (property_value (state_of (tick (Js.Resolved res) this)) "snapshotMimeType"))
          = false) as Hnull.
  { rewrite (tick_resolved _ _ Hp). cbv zeta.
    destruct (Js.is_null (default Js.VUndefined (property_value this "snapshotMimeType")))
      eqn:Hn; observe.
    - rewrite property_value_cache_ne by done.
      rewrite property_value_cache; [done|apply Hp].
    - by rewrite property_value_cache_ne. }
  rewrite (tick_resolved_later _ _ Hp' Hnull). cbv zeta. observe.
  rewrite (tick_resolved _ _ Hp). cbv zeta.
  destruct (Js.is_null (default Js.VUndefined (property_value this "snapshotMimeType")));
    observe; apply cache_cache.
Qed.

(** The three ways a name is dispatched. *)
Lemma name_cases (n : string) : n = "move" ∨ n = "stop" ∨ (n ≠ "move" ∧ n ≠ "stop").
Proof.
  destruct (String.eqb_spec n "move"); [by left|].
  destruct (String.eqb_spec n "stop"); [by right; left|]. by right; right.
Qed.

(** X17: [performAction] throws exactly when the action is a 'move' or a
    'stop' and the camera has no PTZ service, or the action is a 'move'
    whose input is [undefined] or [null].  All that has happened then is
    the action's [start]: the action is left pending, no camera call was
    made and no error is notified. *)
Theorem performAction_throws_only_before_the_call this a :
  let run := performAction this a in
  let unfit :=
    (Action.name a = "move" ∨ Action.name a = "stop") ∧
    (ptz (this_camera this) = None ∨
     (Action.name a = "move" ∧ nullish (Action.input a) = true)) in
  ((∃ e, result_of run = Throw e) <-> unfit) ∧
  (unfit ->
   trace_of run = [ActionStart; ActionNotify "pending"] ∧
   Action.status (state_of run) = "pending" ∧
   count is_error_notification (trace_of run) = 0%nat ∧
   count is_camera_call (trace_of run) = 0%nat).
Proof.
  cbv zeta. destruct (name_cases (Action.name a)) as [Hn|[Hn|[Hm Hs]]].
  - rewrite (performAction_move _ _ Hn).
    destruct (Action.input a) eqn:Hi; cbn [Js.member nullish];
      destruct (ptz _) as [service|]; cbv zeta;
      try (destruct (continuousMove _ _ _ _) as [[]|?]); observe;
      (split; [split|]);
      try (intros [? [=]]); try (intros [_ [[=]|[_ [=]]]]);
      try (intros _; by eauto 10); try (by destruct a; cbn; eauto 10).
  - rewrite (performAction_stop _ _ Hn).
    assert (Action.name a ≠ "move") as Hm by (rewrite Hn; done).
    destruct (ptz _) as [service|]; [destruct (stop _) as [[]|?]|]; observe;
      (split; [split|]);
      try (intros [? [=]]); try (intros [_ [[=]|[? _]]]; done);
      try (intros _; by eauto 10); try (by destruct a; cbn; eauto 10).
  - rewrite performAction_other by done. observe.
    split; [split|]; [intros [? [=]]|intros [[?|?] _]; done..].
Qed.

(** X18: when [performAction] returns, its promise is resolved and the action
    has been ended in exactly one way: either by [finish] (completed, no
    notification with the status 'error', nothing logged) or by the status
    'error' with one notification of it and no [finish], never both. *)
Theorem performAction_ends_the_action_once this a p :
  result_of (performAction this a) = Normal p ->
  let run := performAction this a in
  p = Js.Resolved tt ∧
  ((Action.status (state_of run) = "completed" ∧
    count is_finish (trace_of run) = 1%nat ∧
    count is_error_notification (trace_of run) = 0%nat ∧
    count is_console_error (trace_of run) = 0%nat)
   ∨
   (Action.status (state_of run) = "error" ∧
    count is_finish (trace_of run) = 0%nat ∧
    count is_error_notification (trace_of run) = 1%nat)).
Proof.
  cbv zeta. destruct (name_cases (Action.name a)) as [Hn|[Hn|[Hm Hs]]].
  - rewrite (performAction_move _ _ Hn).
    destruct (Js.member _ _) as [?|_]; [by observe|].
    destruct (ptz _) as [service|]; [|by observe]. cbv zeta.
    destruct (continuousMove _ _ _ _) as [[]|?]; observe; intros [= <-];
      (split; [done|]); destruct a; cbn; [left|right]; tauto.
  - rewrite (performAction_stop _ _ Hn).
    destruct (ptz _) as [service|]; [|by observe].
    destruct (stop _) as [[]|?]; observe; intros [= <-];
      (split; [done|]); destruct a; cbn; [left|right]; tauto.
  - rewrite performAction_other by done. observe. intros [= <-].
    split; [done|]. right. destruct a; cbn; tauto.
Qed.

(** X19: for every action and device [performAction] makes at most one
    camera call, no snapshot fetch, touches no property and calls the
    action's [start] at most once. *)
Theorem performAction_calls_the_camera_at_most_once this a :
  (count is_camera_call (trace_of (performAction this a)) <= 1)%nat ∧
  count is_snapshot_fetch (trace_of (performAction this a)) = 0%nat ∧
  count is_publication (trace_of (performAction this a)) = 0%nat ∧
  (count is_start (trace_of (performAction this a)) <= 1)%nat.
Proof.
  destruct (name_cases (Action.name a)) as [Hn|[Hn|[Hm Hs]]].
  - rewrite (performAction_move _ _ Hn).
    destruct (Js.member _ _) as [?|_]; [by observe; cbn; lia|].
    destruct (ptz _) as [service|]; [|by observe; cbn; lia]. cbv zeta.
    destruct (continuousMove _ _ _ _) as [[]|?]; observe; cbn; lia.
  - rewrite (performAction_stop _ _ Hn).
    destruct (ptz _) as [service|]; [|by observe; cbn; lia].
    destruct (stop _) as [[]|?]; observe; cbn; lia.
  - rewrite performAction_other by done. observe. cbn. lia.
Qed.

(** X20: when the camera has the PTZ service and the service resolves the
    [stop] call, [performAction] on a 'stop' action calls [start], the
    camera's [stop] and [finish], in this order; the action ends completed,
    and no error is notified or logged. *)
Theorem stop_success_starts_then_finishes this a service :
  Action.name a = "stop" ->
  ptz (this_camera this) = Some service ->
  stop service = Js.Resolved tt ->
  let run := performAction this a in
  result_of run = Normal (Js.Resolved tt) ∧
  trace_of run
    = [ActionStart; ActionNotify "pending"; Stop (Js.Resolved tt);
       ActionFinish; ActionNotify "completed"] ∧
  Action.status (state_of run) = "completed" ∧
  count is_error_notification (trace_of run) = 0%nat ∧
  count is_console_error (trace_of run) = 0%nat.
Proof.
  intros Hn Hptz Hcall. cbv zeta.
  rewrite (performAction_stop _ _ Hn), Hptz, Hcall. observe. by destruct a.
Qed.

(** X21: the input of an action whose name is not 'move' is never read: two
    such actions that differ in their input only give the same result,
    the same trace and the same status, and the input is left as it was. *)
Theorem only_move_reads_the_input this n input1 input2 st :
  n ≠ "move" ->
  let run1 := performAction this {| Action.name := n; Action.input := input1; Action.status := st |} in
  let run2 := performAction this {| Action.name := n; Action.input := input2; Action.status := st |} in
  result_of run1 = result_of run2 ∧
  trace_of run1 = trace_of run2 ∧
  Action.status (state_of run1) = Action.status (state_of run2) ∧
  Action.input (state_of run1) = input1.
Proof.
  intros Hm. cbv zeta. destruct (String.eqb_spec n "stop") as [->|Hs].
  - rewrite !performAction_stop by done.
    destruct (ptz _) as [service|]; [destruct (stop _) as [[]|?]|]; by observe.
  - rewrite !performAction_other by done. by observe.
Qed.

(** X22: every [continuousMove] call of [performAction] belongs to a 'move',
    has the profile token [null], the velocity made of the input's speedX,
    speedY and speedZ and a timeout that is the input's when it is a number
    and [null] otherwise; its outcome is what the camera's PTZ service
    answers to that call. *)
Theorem camera_is_moved_with_the_inputs_members this a frame v t outcome :
  In (ContinuousMove frame v t outcome) (trace_of (performAction this a)) ->
  Action.name a = "move" ∧
  frame = Js.VNull ∧
  v = velocity_of (Action.input a) ∧
  t = timeout_of (Action.input a) ∧
  (t = Js.VNull ∨ Js.is_number t = true) ∧
  ∃ service, ptz (this_camera this) = Some service ∧
             outcome = continuousMove service frame v t.
Proof.
  assert (∀ input, timeout_of input = Js.VNull ∨ Js.is_number (timeout_of input) = true)
    as Htimeout.
  { intros input. unfold timeout_of.
    destruct (Js.is_number (input_member input "timeout")) eqn:Hnum; eauto. }
  destruct (name_cases (Action.name a)) as [Hn|[Hn|[Hm Hs]]].
  - rewrite (performAction_move _ _ Hn).
    destruct (Js.member _ _) as [?|_].
    { observe. intros [?|[?|[]]]; discriminate. }
    destruct (ptz _) as [service|].
    2:{ observe. intros [?|[?|[]]]; discriminate. }
    cbv zeta. destruct (continuousMove _ _ _ _) as [[]|?] eqn:Hcall; observe.
    + intros [?|[?|[[= <- <- <- <-]|[?|[?|[]]]]]]; try discriminate. eauto 10.
    + intros [?|[?|[[= <- <- <- <-]|[?|[?|[]]]]]]; try discriminate. eauto 10.
  - rewrite (performAction_stop _ _ Hn).
    destruct (ptz _) as [service|]; [destruct (stop _) as [[]|?]|]; observe; cbn;
      intros H; repeat (destruct H as [H|H]; try discriminate); done.
  - rewrite performAction_other by done. observe.
    intros [?|[]]; discriminate.
Qed.

Lemma split_not_nil sep s : split sep s ≠ [].
Proof.
  destruct s as [|c rest]; [done|]. simpl.
  destruct (Ascii.eqb c sep); [done|]. by destruct (split sep rest).
Qed.

Lemma split_segments sep s : Forall (fun seg => occurs sep seg = false) (split sep s).
Proof.
  induction s as [|c rest IH]; [by repeat constructor|]. simpl.
  destruct (Ascii.eqb c sep) eqn:Hc; [by constructor|].
  destruct (split sep rest) as [|seg segs]; [by repeat constructor; simpl; rewrite Hc|].
  inversion IH; subst. constructor; [|done]. simpl. by rewrite Hc.
Qed.

Lemma join_split sep s : join sep (split sep s) = s.
Proof.
  induction s as [|c rest IH]; [done|]. simpl.
  pose proof (split_not_nil sep rest) as Hnil.
  destruct (Ascii.eqb_spec c sep) as [->|Hc].
  - destruct (split sep rest) as [|seg segs]; [done|]. by rewrite <- IH.
  - destruct (split sep rest) as [|seg segs]; [done|].
    rewrite <- IH. by destruct segs.
Qed.

Lemma append_assoc (s1 s2 s3 : string) : (s1 ++ s2) ++ s3 = s1 ++ (s2 ++ s3).
Proof.
  induction s1 as [|c s1 IH]; [reflexivity|].
  change (String c ((s1 ++ s2) ++ s3) = String c (s1 ++ (s2 ++ s3))).
  by rewrite IH.
Qed.

Lemma join_snoc sep front seg :
  join sep (front ++ [seg]) =
  match front with
  | [] => seg
  | _ => join sep front ++ String sep seg
  end.
Proof.
  induction front as [|a front IH]; [done|].
  destruct front as [|b front]; [done|].
  change (join sep ((a :: b :: front) ++ [seg]))
    with (a ++ String sep (join sep ((b :: front) ++ [seg]))).
  rewrite IH.
  change (join sep (a :: b :: front)) with (a ++ String sep (join sep (b :: front))).
  by rewrite append_assoc.
Qed.

Lemma constructor_identity data camera :
  id (constructor data camera).1
    = "onvif-" ++ default "undefined" (last (split ":" (data_urn data))) ∧
  urn (constructor data camera).1 = data_urn data ∧
  name (constructor data camera).1 = data_name data ∧
  description (constructor data camera).1
    = Manufacturer (getInformation camera) ++ " " ++ Model (getInformation camera).
Proof.
  destruct camera as [info [uri video audio] service has_events].
  by destruct audio, service, has_events.
Qed.

(** X1: the id of a device is "onvif-" followed by the last of the segments
    that the colons cut the URN into (the whole URN when it has no colon);
    that segment holds no colon, and joining the segments with colons gives
    the URN back. *)
Theorem device_id_is_the_last_urn_segment data camera :
  ∃ front seg,
    id (constructor data camera).1 = "onvif-" ++ seg ∧
    occurs ":" seg = false ∧
    split ":" (data_urn data) = (front ++ [seg])%list ∧
    data_urn data = match front with
                    | [] => seg
                    | _ => join ":" front ++ ":" ++ seg
                    end.
Proof.
  destruct (constructor_identity data camera) as (Hid & _).
  pose proof (split_not_nil ":" (data_urn data)) as Hnil.
  pose proof (split_segments ":" (data_urn data)) as Hsegs.
  pose proof (join_split ":" (data_urn data)) as Hjoin.
  destruct (split ":" (data_urn data)) as [|s0 l] using rev_ind; [done|]. clear IHl.
  exists l, s0. rewrite last_snoc in Hid. split; [done|]. split.
  - apply Forall_app in Hsegs as [_ Hseg]. by inversion Hseg.
  - split; [done|]. by rewrite join_snoc in Hjoin.
Qed.

Lemma lifetime_frame data camera fetches :
  actions (lifetime data camera fetches).1 = actions (constructor data camera).1 ∧
  this_camera (lifetime data camera fetches).1 = camera.
Proof.
  rewrite lifetime_run. cbn [fst].
  destruct (poll_frame fetches (constructor data camera).1) as (-> & -> & _).
  by rewrite constructor_camera.
Qed.

(** X8: over the whole lifetime the registered actions are 'move' and 'stop',
    with their metadata, when the camera has the PTZ service, and none
    otherwise. *)
Theorem actions_are_registered_with_ptz_only data camera fetches :
  actions (lifetime data camera fetches).1 =
  if ptz camera is Some _
  then <["stop" := stop_metadata]> (<["move" := move_metadata]> ∅)
  else ∅.
Proof.
  rewrite (proj1 (lifetime_frame data camera fetches)). apply constructor_actions.
Qed.

(** X16: at any point of a device's lifetime, [performAction] on an action
    whose name is registered on the device returns a resolved promise,
    provided the input of a 'move' is not [undefined] or [null]. *)
Theorem registered_actions_do_not_throw data camera fetches a :
  is_Some (actions (lifetime data camera fetches).1 !! Action.name a) ->
  (Action.name a = "move" -> nullish (Action.input a) = false) ->
  result_of (performAction (lifetime data camera fetches).1 a) = Normal (Js.Resolved tt).
Proof.
  destruct (lifetime_frame data camera fetches) as [Hactions Hcamera].
  rewrite Hactions, constructor_actions. intros Hreg Hinput.
  destruct (ptz camera) as [service|] eqn:Hptz.
  2:{ rewrite lookup_empty in Hreg. by destruct Hreg. }
  destruct (name_cases (Action.name a)) as [Hn|[Hn|[Hm Hs]]].
  - rewrite (performAction_move _ _ Hn), Hcamera, Hptz. specialize (Hinput Hn).
    destruct (Action.input a); try discriminate; cbn [Js.member]; cbv zeta;
      by destruct (continuousMove _ _ _ _) as [[]|e].
  - rewrite (performAction_stop _ _ Hn), Hcamera, Hptz.
    by destruct (stop _) as [[]|e].
  - by rewrite performAction_other.
Qed.

Lemma tick_starts_no_timer fetch this : count is_timer (trace_of (tick fetch this)) = 0%nat.
Proof.
  destruct (tick_shape fetch this) as (this' & t & log & -> & _ & Ht & Hlog). observe.
  rewrite count_cons, count_app. cbn [is_timer].
  rewrite (count_none is_timer is_publication t) by (done || by intros []).
  by rewrite (count_none is_timer is_console_error log) by (done || by intros []).
Qed.

Lemma poll_starts_no_timer fetches this :
  count is_timer (trace_of (poll fetches this)) = 0%nat.
Proof.
  revert this. induction fetches as [|fetch rest IH]; intros this; [done|].
  rewrite poll_step. observe. by rewrite count_app, tick_starts_no_timer, IH.
Qed.

(** X2: constructing a device adds the snapshot service to the camera,
    subscribes to the camera's events exactly when the camera has them and
    last starts the timer of 10000 ms; it makes no camera call of its own,
    and that timer is the only one over the device's lifetime (no tick
    starts another). *)
Theorem constructor_starts_the_only_timer data camera fetches :
  (constructor data camera).2
  = ([CameraAdd "snapshot"] ++
     (if events camera
      then [EventsGetEventProperties; EventsOn "messages"; EventsOn "messages:error";
            EventsStartPull]
      else []) ++
     [SetInterval 10000])%list ∧
  count is_camera_call (constructor data camera).2 = 0%nat ∧
  count is_timer ((constructor data camera).2 ++ (lifetime data camera fetches).2) = 1%nat.
Proof.
  rewrite count_app, lifetime_run. cbn [snd]. rewrite poll_starts_no_timer.
  destruct camera as [info [uri video audio] service has_events].
  by destruct audio, service, has_events.
Qed.

Lemma digit_of_pretty_N_char d :
  (d < 10)%N -> Js.digit_of (pretty_N_char d) = Some (Z.of_N d).
Proof.
  intros Hd. do 10 (destruct d as [|d] using N.peano_ind; [reflexivity|]). lia.
Qed.

Lemma digits_stop acc rest :
  starts_with_digit rest = false -> Js.digits acc rest = acc.
Proof.
  destruct rest as [|c rest]; [done|]. simpl. intros Hc.
  destruct (Js.digit_of c); [|done]. by rewrite bool_decide_eq_false in Hc; destruct Hc.
Qed.

(** Reading the digits that [pretty] wrote gives the number back. *)
Lemma digits_pretty_N_go x :
  (0 < x)%N ->
  ∃ k : nat, ∀ acc s,
    Js.digits acc (pretty_N_go x s)
    = Js.digits (Some (default 0 acc * 10 ^ Z.of_nat k + Z.of_N x)) s.
Proof.
  induction (N.lt_wf_0 x) as [x _ IH]. intros Hx.
  assert (Js.digit_of (pretty_N_char (x `mod` 10)) = Some (Z.of_N (x `mod` 10))) as Hd.
  { apply digit_of_pretty_N_char. by apply N.mod_lt. }
  destruct (decide (x `div` 10 = 0)%N) as [Hz|Hnz].
  - exists 1%nat. intros acc s. rewrite pretty_N_go_step, Hz, pretty_N_go_0 by done.
    cbn [Js.digits]. rewrite Hd. do 2 f_equal.
    assert (x `mod` 10 = x)%N as -> by (apply N.mod_small, N.div_small_iff; [done|lia]).
    lia.
  - destruct (IH (x `div` 10)%N) as [k Hk]; [by apply N.div_lt|by apply N.neq_0_lt_0|].
    exists (S k). intros acc s.
    rewrite pretty_N_go_step, Hk by done. cbn [Js.digits]. rewrite Hd.
    do 2 f_equal. cbn [default from_option id].
    pose proof (N.div_mod x 10 ltac:(done)) as Hdm.
    apply (f_equal Z.of_N) in Hdm. rewrite N2Z.inj_add, N2Z.inj_mul in Hdm.
    generalize dependent (Z.of_N (x `div` 10)). generalize dependent (Z.of_N (x `mod` 10)).
    generalize (Z.of_N x). intros zx zr _ zq _ ->.
    unfold Datatypes.id. change (Z.of_N 10) with 10.
    rewrite Nat2Z.inj_succ, Z.pow_succ_r by lia. ring.
Qed.

Lemma pretty_N_go_first x s :
  (0 < x)%N -> ∃ d t, (d < 10)%N ∧ pretty_N_go x s = String (pretty_N_char d) t.
Proof.
  revert s. induction (N.lt_wf_0 x) as [x _ IH]. intros s Hx.
  rewrite pretty_N_go_step by done.
  destruct (decide (x `div` 10 = 0)%N) as [Hz|Hnz].
  - rewrite Hz, pretty_N_go_0. exists (x `mod` 10)%N, s. split; [|done]. by apply N.mod_lt.
  - apply IH; [by apply N.div_lt|by apply N.neq_0_lt_0].
Qed.

Lemma pretty_N_go_app x s rest : pretty_N_go x s ++ rest = pretty_N_go x (s ++ rest).
Proof.
  revert s. induction (N.lt_wf_0 x) as [x _ IH]. intros s.
  destruct (decide (x = 0)%N) as [->|Hx]; [by rewrite !pretty_N_go_0|].
  assert (0 < x)%N as Hpos by (by apply N.neq_0_lt_0).
  rewrite (pretty_N_go_step x s), (pretty_N_go_step x (s ++ rest)) by done.
  rewrite IH by (by apply N.div_lt). reflexivity.
Qed.

(** On a string that begins with a digit, [parseInt] is the run of digits. *)
Lemma parseInt_string_digit_first c t :
  is_Some (Js.digit_of c) ->
  Js.parseInt_string (String c t)
  = match Js.digits None (String c t) with
    | None => nan
    | Some n => Js.number_of_Z n
    end.
Proof.
  intros [d Hd].
  destruct c as [[] [] [] [] [] [] [] []]; try discriminate Hd; reflexivity.
Qed.

(** [parseInt] of the decimal digits of a natural number of the safe
    range, whatever text follows them. *)
Lemma parseInt_string_pretty n rest :
  0 <= n <= Js.MAX_SAFE_INTEGER -> starts_with_digit rest = false ->
  Js.parseInt_string (pretty n ++ rest) = Js.number_of_Z n.
Proof.
  intros [Hn _] Hrest. destruct n as [|p|p]; [|clear Hn|lia].
  - change (pretty 0 ++ rest) with (String "0" rest).
    rewrite parseInt_string_digit_first by (by eexists).
    cbn [Js.digits]. change (Js.digit_of "0") with (Some 0). cbv beta iota.
    by rewrite digits_stop.
  - change (pretty (Z.pos p)) with (pretty_N_go (N.pos p) "").
    rewrite pretty_N_go_app. change ("" ++ rest) with rest.
    destruct (pretty_N_go_first (N.pos p) rest) as (d & t & Hd & Hfirst); [done|].
    pose proof Hfirst as Hfirst'. rewrite Hfirst.
    rewrite parseInt_string_digit_first
      by (rewrite digit_of_pretty_N_char by done; by eexists).
    rewrite <- Hfirst'. destruct (digits_pretty_N_go (N.pos p)) as [k ->]; [done|].
    by rewrite digits_stop.
Qed.

Lemma parseInt_denoted v n :
  0 <= n <= Js.MAX_SAFE_INTEGER -> denotes v n -> Js.parseInt v = Js.number_of_Z n.
Proof.
  intros Hn [->|(rest & Hrest & ->)]; unfold Js.parseInt, Js.to_string.
  - rewrite <- (parseInt_string_pretty n "") by done.
    f_equal. clear. induction (pretty n) as [|c s IH]; [done|].
    change (String c s = String c (s ++ "")). by rewrite <- IH.
  - by apply parseInt_string_pretty.
Qed.

Lemma constructor_numbers data camera :
  let video := VideoEncoderConfiguration (getDefaultProfile camera) in
  let this := (constructor data camera).1 in
  property_value this "videoBitRate"
    = Some (Js.VNum (Js.parseInt (Video.BitrateLimit (Video.RateControl video)))) ∧
  property_value this "videoFrameRate"
    = Some (Js.VNum (Js.parseInt (Video.FrameRateLimit (Video.RateControl video)))) ∧
  property_value this "videoQuality" = Some (Js.VNum (Js.parseInt (Video.Quality video))) ∧
  match AudioEncoderConfiguration (getDefaultProfile camera) with
  | Some audio =>
      property_value this "audioBitRate"
        = Some (Js.VNum (Js.parseInt (Audio.Bitrate audio))) ∧
      property_value this "audioSampleRate"
        = Some (Js.VNum (Js.parseInt (Audio.SampleRate audio)))
  | None => True
  end.
Proof.
  destruct camera as [info [uri video audio] service has_events].
  by destruct audio, service, has_events.
Qed.

(** X6: when BitrateLimit, FrameRateLimit and Quality are non-negative
    integers of the safe range (at most [Number.MAX_SAFE_INTEGER]), given
    as Numbers or as strings of their decimal digits followed by text that
    does not start with a digit ("5.0"), the constructor registers those
    integers as videoBitRate, videoFrameRate and videoQuality. *)
Theorem integer_video_fields_are_registered_as_numbers data camera b f q :
  0 <= b <= Js.MAX_SAFE_INTEGER ->
  0 <= f <= Js.MAX_SAFE_INTEGER ->
  0 <= q <= Js.MAX_SAFE_INTEGER ->
  denotes (Video.BitrateLimit (Video.RateControl
             (VideoEncoderConfiguration (getDefaultProfile camera)))) b ->
  denotes (Video.FrameRateLimit (Video.RateControl
             (VideoEncoderConfiguration (getDefaultProfile camera)))) f ->
  denotes (Video.Quality (VideoEncoderConfiguration (getDefaultProfile camera))) q ->
  property_value (constructor data camera).1 "videoBitRate"
    = Some (Js.VNum (Js.number_of_Z b)) ∧
  property_value (constructor data camera).1 "videoFrameRate"
    = Some (Js.VNum (Js.number_of_Z f)) ∧
  property_value (constructor data camera).1 "videoQuality"
    = Some (Js.VNum (Js.number_of_Z q)).
Proof.
  intros Hb Hf Hq Db Df Dq.
  destruct (constructor_numbers data camera) as (-> & -> & -> & _).
  by rewrite (parseInt_denoted _ _ Hb Db), (parseInt_denoted _ _ Hf Df),
    (parseInt_denoted _ _ Hq Dq).
Qed.

(** X7: the same for the audio block: a Bitrate and a SampleRate that are
    non-negative integers of the safe range are registered as audioBitRate
    and audioSampleRate. *)
Theorem integer_audio_fields_are_registered_as_numbers data camera audio b r :
  0 <= b <= Js.MAX_SAFE_INTEGER ->
  0 <= r <= Js.MAX_SAFE_INTEGER ->
  AudioEncoderConfiguration (getDefaultProfile camera) = Some audio ->
  denotes (Audio.Bitrate audio) b ->
  denotes (Audio.SampleRate audio) r ->
  property_value (constructor data camera).1 "audioBitRate"
    = Some (Js.VNum (Js.number_of_Z b)) ∧
  property_value (constructor data camera).1 "audioSampleRate"
    = Some (Js.VNum (Js.number_of_Z r)).
Proof.
  intros Hb Hr Haudio Db Dr.
  destruct (constructor_numbers data camera) as (_ & _ & _ & H).
  rewrite Haudio in H. destruct H as [-> ->].
  by rewrite (parseInt_denoted _ _ Hb Db), (parseInt_denoted _ _ Hr Dr).
Qed.

Lemma list_ind3 {A} (P : list A -> Prop) :
  P [] -> (∀ a, P [a]) -> (∀ a b, P [a; b]) ->
  (∀ a b c l, P l -> P (a :: b :: c :: l)) ->
  ∀ l, P l.
Proof.
  intros H0 H1 H2 H3 l.
  cut (P l ∧ (∀ a, P (a :: l)) ∧ (∀ a b, P (a :: b :: l))); [tauto|].
  induction l as [|x l (IH0 & IH1 & IH2)]; [by auto|].
  split; [apply IH1|]. split; [intros a; apply IH2|]. intros a b. by apply H3.
Qed.

Lemma base64_length bytes :
  String.length (Js.base64 bytes) = (4 * ((length bytes + 2) `div` 3))%nat.
Proof.
  induction bytes as [|a|a b|a b c rest IH] using list_ind3; [done..|].
  change (Js.base64 (a :: b :: c :: rest)) with
    (let n := N.lor (N.lor (N.shiftl (Byte.to_N a) 16) (N.shiftl (Byte.to_N b) 8))
                (Byte.to_N c) in
     String (Js.base64_char (N.shiftr n 18))
       (String (Js.base64_char (N.shiftr n 12))
          (String (Js.base64_char (N.shiftr n 6))
             (String (Js.base64_char n) (Js.base64 rest))))).
  cbv zeta. cbn [String.length length]. rewrite IH.
  replace (S (S (S (length rest))) + 2)%nat with (length rest + 2 + 1 * 3)%nat by lia.
  rewrite Nat.div_add by done. lia.
Qed.

(** X15: the text published for a picture of n bytes has 4 * ceil(n / 3)
    characters (base64 with padding). *)
Theorem published_snapshot_has_the_base64_length data camera fetches res :
  ∃ picture,
    property_value
      (state_of (tick (Js.Resolved res) (lifetime data camera fetches).1)) "snapshot"
    = Some (Js.VStr picture) ∧
    String.length picture = (4 * ((length (image res) + 2) `div` 3))%nat.
Proof.
  exists (Js.base64 (image res)). split; [|apply base64_length].
  rewrite lifetime_run. cbn [fst]. apply tick_snapshot_value.
  apply poll_pollable, constructor_pollable.
Qed.

Lemma static_properties_never_change_witness :
  "streamUrl" ≠ "snapshotMimeType" ∧ "streamUrl" ≠ "snapshot" ∧
  properties
    (lifetime example_data fixed_camera [Js.Resolved (jpeg [Byte.x4d])]).1 !! "streamUrl"
  = properties (constructor example_data fixed_camera).1 !! "streamUrl".
Proof.
  assert ("streamUrl" ≠ "snapshotMimeType") as Hm by done.
  assert ("streamUrl" ≠ "snapshot") as Hs by done.
  split; [exact Hm|]. split; [exact Hs|].
  exact (static_properties_never_change example_data fixed_camera
           [Js.Resolved (jpeg [Byte.x4d])] "streamUrl" Hm Hs).
Defined.

Lemma performAction_throws_only_before_the_call_witness :
  ((Action.name bare_move = "move" ∨ Action.name bare_move = "stop") ∧
   (ptz (this_camera (ptz_device (Js.Resolved tt))) = None ∨
    (Action.name bare_move = "move" ∧ nullish (Action.input bare_move) = true))) ∧
  trace_of (performAction (ptz_device (Js.Resolved tt)) bare_move)
  = [ActionStart; ActionNotify "pending"] ∧
  Action.status (state_of (performAction (ptz_device (Js.Resolved tt)) bare_move))
  = "pending".
Proof.
  assert ((Action.name bare_move = "move" ∨ Action.name bare_move = "stop") ∧
          (ptz (this_camera (ptz_device (Js.Resolved tt))) = None ∨
           (Action.name bare_move = "move" ∧ nullish (Action.input bare_move) = true)))
    as Hunfit by (split; [left; reflexivity|right; split; reflexivity]).
  split; [exact Hunfit|].
  pose proof (proj2 (performAction_throws_only_before_the_call
                       (ptz_device (Js.Resolved tt)) bare_move) Hunfit) as H.
  exact (conj (proj1 H) (proj1 (proj2 H))).
Defined.

Lemma performAction_ends_the_action_once_witness :
  result_of (performAction (ptz_device (Js.Rejected broken_motor)) example_move)
  = Normal (Js.Resolved tt) ∧
  ((Action.status (state_of (performAction (ptz_device (Js.Rejected broken_motor))
                               example_move)) = "completed" ∧
    count is_finish (trace_of (performAction (ptz_device (Js.Rejected broken_motor))
                                 example_move)) = 1%nat ∧
    count is_error_notification
      (trace_of (performAction (ptz_device (Js.Rejected broken_motor)) example_move))
    = 0%nat ∧
    count is_console_error
      (trace_of (performAction (ptz_device (Js.Rejected broken_motor)) example_move))
    = 0%nat)
   ∨
   (Action.status (state_of (performAction (ptz_device (Js.Rejected broken_motor))
                               example_move)) = "error" ∧
    count is_finish (trace_of (performAction (ptz_device (Js.Rejected broken_motor))
                                 example_move)) = 0%nat ∧
    count is_error_notification
      (trace_of (performAction (ptz_device (Js.Rejected broken_motor)) example_move))
    = 1%nat)).
Proof.
  split; [reflexivity|].
  exact (proj2 (performAction_ends_the_action_once
                  (ptz_device (Js.Rejected broken_motor)) example_move
                  (Js.Resolved tt) eq_refl)).
Defined.

Lemma stop_success_starts_then_finishes_witness :
  Action.name example_stop = "stop" ∧
  ptz (this_camera (ptz_device (Js.Resolved tt))) = Some (ptz_settling (Js.Resolved tt)) ∧
  stop (ptz_settling (Js.Resolved tt)) = Js.Resolved tt ∧
  trace_of (performAction (ptz_device (Js.Resolved tt)) example_stop)
  = [ActionStart; ActionNotify "pending"; Stop (Js.Resolved tt);
     ActionFinish; ActionNotify "completed"].
Proof.
  split; [reflexivity|]. split; [reflexivity|]. split; [reflexivity|].
  exact (proj1 (proj2
    (stop_success_starts_then_finishes (ptz_device (Js.Resolved tt)) example_stop
       (ptz_settling (Js.Resolved tt)) eq_refl eq_refl eq_refl))).
Defined.

Lemma only_move_reads_the_input_witness :
  "stop" ≠ "move" ∧
  trace_of (performAction (ptz_device (Js.Resolved tt))
              {| Action.name := "stop"; Action.input := Js.VUndefined;
                 Action.status := pending |})
  = trace_of (performAction (ptz_device (Js.Resolved tt))
                {| Action.name := "stop"; Action.input := Js.VStr "now";
                   Action.status := pending |}).
Proof.
  assert ("stop" ≠ "move") as Hn by done.
  split; [exact Hn|].
  exact (proj1 (proj2
    (only_move_reads_the_input (ptz_device (Js.Resolved tt)) "stop"
       Js.VUndefined (Js.VStr "now") pending Hn))).
Defined.

Lemma camera_is_moved_with_the_inputs_members_witness :
  In (ContinuousMove Js.VNull
        {| x := Js.VNum 0.5%float; y := Js.VNum (-0.5)%float; z := Js.VNum 0%float |}
        (Js.VNum 3%float) (Js.Resolved tt))
     (trace_of (performAction (ptz_device (Js.Resolved tt)) example_move)) ∧
  {| x := Js.VNum 0.5%float; y := Js.VNum (-0.5)%float; z := Js.VNum 0%float |}
  = velocity_of (Action.input example_move).
Proof.
  assert (In (ContinuousMove Js.VNull
                {| x := Js.VNum 0.5%float; y := Js.VNum (-0.5)%float;
                   z := Js.VNum 0%float |}
                (Js.VNum 3%float) (Js.Resolved tt))
             (trace_of (performAction (ptz_device (Js.Resolved tt)) example_move)))
    as Hcall by (right; right; left; reflexivity).
  split; [exact Hcall|].
  exact (proj1 (proj2 (proj2
    (camera_is_moved_with_the_inputs_members (ptz_device (Js.Resolved tt)) example_move
       _ _ _ _ Hcall)))).
Defined.

Lemma registered_actions_do_not_throw_witness :
  is_Some (actions (lifetime example_data (ptz_camera (Js.Rejected broken_motor))
                      [Js.Resolved (jpeg [])]).1 !! Action.name example_move) ∧
  (Action.name example_move = "move" -> nullish (Action.input example_move) = false) ∧
  result_of (performAction
               (lifetime example_data (ptz_camera (Js.Rejected broken_motor))
                  [Js.Resolved (jpeg [])]).1 example_move)
  = Normal (Js.Resolved tt).
Proof.
  assert (is_Some (actions (lifetime example_data (ptz_camera (Js.Rejected broken_motor))
                              [Js.Resolved (jpeg [])]).1 !! Action.name example_move))
    as Hreg by (eexists; reflexivity).
  split; [exact Hreg|]. split; [intros _; reflexivity|].
  exact (registered_actions_do_not_throw example_data
           (ptz_camera (Js.Rejected broken_motor)) [Js.Resolved (jpeg [])] example_move
           Hreg (fun _ => eq_refl)).
Defined.

Lemma integer_video_fields_are_registered_as_numbers_witness :
  (0 <= 4096 <= Js.MAX_SAFE_INTEGER ∧ 0 <= 30 <= Js.MAX_SAFE_INTEGER ∧
   0 <= 5 <= Js.MAX_SAFE_INTEGER) ∧
  denotes (Js.SStr "4096") 4096 ∧ denotes (Js.SStr "30") 30 ∧ denotes (Js.SStr "5.0") 5 ∧
  property_value (constructor example_data fixed_camera).1 "videoQuality"
  = Some (Js.VNum (Js.number_of_Z 5)).
Proof.
  assert (denotes (Js.SStr "4096") 4096) as Db by (right; exists ""; by split).
  assert (denotes (Js.SStr "30") 30) as Df by (right; exists ""; by split).
  assert (denotes (Js.SStr "5.0") 5) as Dq by (right; exists ".0"; by split).
  assert (0 <= 4096 <= Js.MAX_SAFE_INTEGER) as Hb by (unfold Js.MAX_SAFE_INTEGER; lia).
  assert (0 <= 30 <= Js.MAX_SAFE_INTEGER) as Hf by (unfold Js.MAX_SAFE_INTEGER; lia).
  assert (0 <= 5 <= Js.MAX_SAFE_INTEGER) as Hq by (unfold Js.MAX_SAFE_INTEGER; lia).
  split; [exact (conj Hb (conj Hf Hq))|].
  split; [exact Db|]. split; [exact Df|]. split; [exact Dq|].
  exact (proj2 (proj2
    (integer_video_fields_are_registered_as_numbers example_data fixed_camera 4096 30 5
       Hb Hf Hq Db Df Dq))).
Defined.

Lemma integer_audio_fields_are_registered_as_numbers_witness :
  (0 <= 64 <= Js.MAX_SAFE_INTEGER ∧ 0 <= 16 <= Js.MAX_SAFE_INTEGER) ∧
  AudioEncoderConfiguration (getDefaultProfile audio_camera) = Some example_audio ∧
  denotes (Audio.Bitrate example_audio) 64 ∧
  denotes (Audio.SampleRate example_audio) 16 ∧
  property_value (constructor example_data audio_camera).1 "audioBitRate"
  = Some (Js.VNum (Js.number_of_Z 64)).
Proof.
  assert (denotes (Audio.Bitrate example_audio) 64) as Db by (right; exists ""; by split).
  assert (denotes (Audio.SampleRate example_audio) 16) as Dr by (by left).
  assert (0 <= 64 <= Js.MAX_SAFE_INTEGER) as Hb by (unfold Js.MAX_SAFE_INTEGER; lia).
  assert (0 <= 16 <= Js.MAX_SAFE_INTEGER) as Hr by (unfold Js.MAX_SAFE_INTEGER; lia).
  split; [exact (conj Hb Hr)|].
  split; [reflexivity|]. split; [exact Db|]. split; [exact Dr|].
  exact (proj1
    (integer_audio_fields_are_registered_as_numbers example_data audio_camera
       example_audio 64 16 Hb Hr eq_refl Db Dr)).
Defined.
